(** * thunderstorm-downloader: path resolution, fetch and install

    A shallow embedding of [main.py].  Python [str] values are modelled as
    Rocq strings (sequences of 8-bit characters); case conversion acts on the
    ASCII letters, which is all the program's constants contain.  Paths are
    POSIX paths ([os.sep = "/"]).  The file system and the repository are a
    parameter ([Env]); what the program does to them is recorded as a trace
    of events next to the file system it leaves.  The worker pool is modelled
    as running its tasks one after the other. *)

From Stdlib Require Import String Ascii ZArith Lia.
From stdpp Require Import base list gmap strings pretty.

Local Open Scope string_scope.
Local Open Scope list_scope.

(** ** Python string methods *)

Module Str.

Fixpoint startswith (s p : string) {struct p} : bool :=
  match p with
  | EmptyString => true
  | String a p' =>
      match s with
      | EmptyString => false
      | String b s' => Ascii.eqb a b && startswith s' p'
      end
  end.

Fixpoint endswith (s suf : string) : bool :=
  if String.eqb s suf then true
  else match s with
       | EmptyString => false
       | String _ s' => endswith s' suf
       end.

Fixpoint contains_char (c : ascii) (s : string) : bool :=
  match s with
  | EmptyString => false
  | String x s' => if Ascii.eqb x c then true else contains_char c s'
  end.

(** [sub in s] *)
Fixpoint contains (sub s : string) : bool :=
  if startswith s sub then true
  else match s with
       | EmptyString => false
       | String _ s' => contains sub s'
       end.

(** [s.replace(old, new)] for a non-empty [old]: scan left to right; at a
    position where [old] starts emit [new] and skip [old]; otherwise emit the
    character.  [skip] counts the characters of a match still to be passed. *)
Fixpoint replace_from (old new : string) (skip : nat) (s : string) : string :=
  match s with
  | EmptyString => EmptyString
  | String c s' =>
      match skip with
      | S k => replace_from old new k s'
      | O =>
          if startswith s old
          then new +:+ replace_from old new (String.length old - 1) s'
          else String c (replace_from old new 0 s')
      end
  end.

(** With an empty [old], Python puts [new] before every character and at
    the end. *)
Fixpoint intersperse_all (new s : string) : string :=
  match s with
  | EmptyString => new
  | String c s' => new +:+ String c (intersperse_all new s')
  end.

Definition replace (s old new : string) : string :=
  match old with
  | EmptyString => intersperse_all new s
  | _ => replace_from old new 0 s
  end.

(** [s.index(sub)]: [None] stands for [ValueError]. *)
Fixpoint index (s sub : string) : option nat :=
  if startswith s sub then Some 0
  else match s with
       | EmptyString => None
       | String _ s' => S <$> index s' sub
       end.

(** [s[:n]] and [s[n:]] *)
Fixpoint take (n : nat) (s : string) : string :=
  match n, s with
  | S k, String c s' => String c (take k s')
  | _, _ => EmptyString
  end.

Fixpoint drop (n : nat) (s : string) : string :=
  match n, s with
  | S k, String _ s' => drop k s'
  | _, _ => s
  end.

(** [s.rfind(c)] for a one-character [c]: the highest index holding [c],
    [-1] when absent. *)
Fixpoint rfind (s : string) (c : ascii) : Z :=
  match s with
  | EmptyString => (-1)%Z
  | String x s' =>
      let r := rfind s' c in
      if (0 <=? r)%Z then (r + 1)%Z
      else if Ascii.eqb x c then 0%Z else (-1)%Z
  end.

Definition lower_char (c : ascii) : ascii :=
  let n := nat_of_ascii c in
  if (65 <=? n)%nat && (n <=? 90)%nat then ascii_of_nat (n + 32) else c.

Fixpoint lower (s : string) : string :=
  match s with
  | EmptyString => EmptyString
  | String c s' => String (lower_char c) (lower s')
  end.

(** On ASCII text [casefold] is [lower]. *)
Definition casefold (s : string) : string := lower s.

Definition is_space (c : ascii) : bool :=
  let n := nat_of_ascii c in
  ((9 <=? n)%nat && (n <=? 13)%nat) || ((28 <=? n)%nat && (n <=? 32)%nat).

(** [s.count(c)] for a one-character [c] *)
Fixpoint count_char (c : ascii) (s : string) : nat :=
  match s with
  | EmptyString => 0
  | String x s' => (if Ascii.eqb x c then 1 else 0) + count_char c s'
  end.

(** [s.rstrip()] *)
Fixpoint rstrip (s : string) : string :=
  match s with
  | EmptyString => EmptyString
  | String c s' =>
      match rstrip s' with
      | EmptyString => if is_space c then EmptyString else String c EmptyString
      | r => String c r
      end
  end.

(** [s.rstrip(c)] for a one-character [c] *)
Fixpoint rstrip_char (c : ascii) (s : string) : string :=
  match s with
  | EmptyString => EmptyString
  | String x s' =>
      match rstrip_char c s' with
      | EmptyString => if Ascii.eqb x c then EmptyString else String x EmptyString
      | r => String x r
      end
  end.

(** [s.split(sep)] for a non-empty [sep]: the segment being read and the
    segments after it. *)
Fixpoint split_from (sep : string) (skip : nat) (s : string) : string * list string :=
  match s with
  | EmptyString => (EmptyString, [])
  | String c s' =>
      match skip with
      | S k => split_from sep k s'
      | O =>
          if startswith s sep
          then let '(h, t) := split_from sep (String.length sep - 1) s' in
               (EmptyString, h :: t)
          else let '(h, t) := split_from sep 0 s' in (String c h, t)
      end
  end.

Definition split (s sep : string) : list string :=
  let '(h, t) := split_from sep 0 s in h :: t.

Fixpoint all_chars (P : ascii -> bool) (s : string) : bool :=
  match s with
  | EmptyString => true
  | String c s' => P c && all_chars P s'
  end.

Fixpoint map_chars (f : ascii -> ascii) (s : string) : string :=
  match s with
  | EmptyString => EmptyString
  | String c s' => String (f c) (map_chars f s')
  end.

(** [sep.join(l)] *)
Fixpoint join (sep : string) (l : list string) : string :=
  match l with
  | [] => EmptyString
  | [x] => x
  | x :: l' => x +:+ sep +:+ join sep l'
  end.

End Str.

(** ** [posixpath] *)

Module PosixPath.

Definition sep : string := "/".
Definition sep_char : ascii := "/"%char.

(** One round of the loop of [os.path.join(a, *p)]. *)
Definition join (path b : string) : string :=
  if Str.startswith b sep then b
  else if String.eqb path EmptyString || Str.endswith path sep then path +:+ b
  else path +:+ sep +:+ b.

Definition join_all (a : string) (p : list string) : string :=
  fold_left join p a.

Definition basename (p : string) : string :=
  let i := (Str.rfind p sep_char + 1)%Z in
  Str.drop (Z.to_nat i) p.

Definition dirname (p : string) : string :=
  let i := (Str.rfind p sep_char + 1)%Z in
  let head := Str.take (Z.to_nat i) p in
  if negb (String.eqb head EmptyString) && negb (Str.all_chars (Ascii.eqb sep_char) head)
  then Str.rstrip_char sep_char head
  else head.

End PosixPath.

(** ** Constants of the program *)

Definition SEP : string := "-".
Definition TARGET_BASE_URL : string := "https://thunderstore.io/package/download".
Definition MOD_DIR_IGNORE : list string :=
  ["readme.md"; "icon.png"; "manifest.json"; "changelog.md"; "license"].
Definition BEPINEX_PACKAGE_NAME : string := "BepInExPack".
Definition BEPINEX : string := "BepInEx".
Definition BEPINEX_PLUGINS_DIR : string := "plugins".
Definition BEPINEX_PATCHERS_DIR : string := "patchers".
Definition BEPINEX_CONFIG_DIR : string := "config".

(** The one-character string holding a backslash. *)
Definition backslash : string := String (ascii_of_nat 92) EmptyString.

(** [x in (a, b, c)] on strings *)
Definition str_in (x : string) (l : list string) : bool :=
  existsb (String.eqb x) l.

(** ** The path resolver *)

Definition _get_file_install_path (game_dir file : string) (is_bepinex : bool) : string :=
  if is_bepinex then
    let file := Str.replace file (BEPINEX_PACKAGE_NAME +:+ PosixPath.sep) EmptyString in
    PosixPath.join game_dir file
  else
    let file := Str.replace (Str.replace file backslash PosixPath.sep)
                            (BEPINEX +:+ PosixPath.sep) EmptyString in
    let file :=
      match Str.index file PosixPath.sep with
      | None => PosixPath.join BEPINEX_PLUGINS_DIR file
      | Some i =>
          let _sub_dir := Str.take i file in
          if negb (str_in _sub_dir
                     [BEPINEX_PLUGINS_DIR; BEPINEX_PATCHERS_DIR; BEPINEX_CONFIG_DIR])
          then PosixPath.join BEPINEX_PLUGINS_DIR file
          else file
      end in
    PosixPath.join_all game_dir [BEPINEX; file].


(** ** Package descriptors *)

Record Mod : Type := mkMod {
  by_ : string;
  name : string;
  version : string;
  out_dir : string
}.

#[global] Instance Mod_eq_dec : EqDecision Mod.
Proof. solve_decision. Defined.

#[global] Instance Mod_countable : Countable Mod.
Proof.
  refine (inj_countable'
            (λ m, (by_ m, name m, version m, out_dir m))
            (λ t, let '(a, b, c, d) := t in mkMod a b c d) _).
  by intros [].
Defined.

Definition package_name (m : Mod) : string :=
  by_ m +:+ SEP +:+ name m +:+ SEP +:+ version m.

Definition url (m : Mod) : string :=
  TARGET_BASE_URL +:+ "/" +:+ by_ m +:+ "/" +:+ name m +:+ "/" +:+ version m.

Definition is_bepinex (m : Mod) : bool :=
  String.eqb (Str.casefold (name m)) (Str.casefold BEPINEX_PACKAGE_NAME).

(** [__repr__] *)
Definition repr (m : Mod) : string := name m +:+ " " +:+ version m.

(** [main] assigns the class attribute [Mod.out_dir], which from then on
    shadows the tuple field of every descriptor: [cls] is that attribute,
    [None] before the assignment. *)
Definition self_out_dir (cls : option string) (m : Mod) : string :=
  match cls with
  | Some d => d
  | None => out_dir m
  end.

(** ** Exceptions, effects and the environment *)

Inductive exn : Type :=
| HTTPError (msg : string)
| ValueError (msg : string)
| TypeError
| KeyError
| OSError (msg : string).

Inductive result (A : Type) : Type :=
| Ok (a : A)
| Raise (e : exn).
Arguments Ok {A} a.
Arguments Raise {A} e.

(** What the program does to the outside, in order. *)
Inductive event : Type :=
| Print (line : string)
| HttpGet (target : string)
| ExtractAll (path : string)
| MakeDirs (path : string)
| Copy (src dst : string).

Record Response (Content : Type) : Type := mkResponse {
  status_code : Z;
  reason : string;
  response_url : string;
  content : Content
}.
Arguments mkResponse {Content}.
Arguments status_code {Content}.
Arguments reason {Content}.
Arguments response_url {Content}.
Arguments content {Content}.

(** The operating system and the network, as the program uses them. *)
Class Env : Type := {
  FS : Type;
  Content : Type;
  (** [os.path.abspath], fixed by the working directory *)
  abspath : string -> string;
  path_exists : FS -> string -> bool;
  path_isdir : FS -> string -> bool;
  (** the names in the [dirs] lists that [os.walk(top)] yields, in order *)
  walk_dirs : FS -> string -> list string;
  (** [json.load] of the file and its ["dependencies"] entry *)
  manifest_dependencies : FS -> string -> result (list string);
  (** [glob.glob("**", root_dir=top, recursive=True)] *)
  glob_recursive : FS -> string -> list string;
  makedirs : string -> FS -> result () * FS;
  copy : string -> string -> FS -> result () * FS;
  (** [open(file).readlines()] *)
  readlines : FS -> string -> result (list string);
  (** [session.get(url)]: the repository answers a URL the same way
      throughout a run *)
  session_get : string -> result (Response Content);
  (** [ZipFile(BytesIO(content)).extractall(path)] *)
  extractall : Content -> string -> FS -> result () * FS;
  (** [tempfile.TemporaryDirectory()] and its cleanup *)
  mkdtemp : FS -> string * FS;
  rmtree : string -> FS -> FS
}.

(** [response.raise_for_status()]: a status from 400 to 599 has an error
    message, and a response with an error message raises. *)
Definition http_error_msg {C} (r : Response C) : option string :=
  let code := status_code r in
  if (400 <=? code)%Z && (code <? 500)%Z then
    Some (pretty code +:+ " Client Error: " +:+ reason r
            +:+ " for url: " +:+ response_url r)
  else if (500 <=? code)%Z && (code <? 600)%Z then
    Some (pretty code +:+ " Server Error: " +:+ reason r
            +:+ " for url: " +:+ response_url r)
  else None.

Definition raise_for_status {C} (r : Response C) : result () :=
  match http_error_msg r with
  | Some msg => Raise (HTTPError msg)
  | None => Ok ()
  end.

(** The constructor applied to the unpacked segments of a line. *)
Definition Mod_new (args : list string) : result Mod :=
  match args with
  | [a; b; c] => Ok (mkMod a b c EmptyString)
  | [a; b; c; d] => Ok (mkMod a b c d)
  | _ => Raise TypeError
  end.

(** One line of the mods file. *)
Definition parse_line (line : string) : result Mod :=
  Mod_new (Str.split (Str.rstrip line) SEP).

(** The set comprehension: lines are read in order, the first line that
    fails raises. *)
Fixpoint parse_lines (lines : list string) : result (list Mod) :=
  match lines with
  | [] => Ok []
  | l :: rest =>
      match parse_line l with
      | Raise e => Raise e
      | Ok m =>
          match parse_lines rest with
          | Raise e => Raise e
          | Ok ms => Ok (m :: ms)
          end
      end
  end.

(** [repr] of a set of descriptors *)
Definition repr_set (s : gset Mod) : string :=
  "{" +:+ Str.join ", " (repr <$> elements s) +:+ "}".

Definition sum3 (rs : list (nat * nat * nat)) : nat * nat * nat :=
  (sum_list_with (λ r, r.1.1) rs, sum_list_with (λ r, r.1.2) rs,
   sum_list_with (λ r, r.2) rs).

Fixpoint collect {A} (rs : list (result A)) : result (list A) :=
  match rs with
  | [] => Ok []
  | Raise e :: _ => Raise e
  | Ok a :: rest =>
      match collect rest with
      | Ok l => Ok (a :: l)
      | Raise e => Raise e
      end
  end.

Record Args : Type := mkArgs {
  game_dir : string;
  mods_file : string;
  args_out_dir : option string
}.

(** Truth value of an optional string: [None] and the empty string are false. *)
Definition truthy (o : option string) : bool :=
  match o with
  | Some EmptyString | None => false
  | Some _ => true
  end.

Section Effects.
Context `{Env}.

(** A computation reads and changes the file system, may raise, and leaves
    a trace of events; the file system and the trace survive a raise. *)
Definition M (A : Type) : Type := FS -> result A * FS * list event.

Definition ret {A} (a : A) : M A := λ fs, (Ok a, fs, []).

Definition raise {A} (e : exn) : M A := λ fs, (Raise e, fs, []).

Definition bind {A B} (m : M A) (f : A -> M B) : M B :=
  λ fs,
    match m fs with
    | (Ok a, fs1, ev1) =>
        let '(r, fs2, ev2) := f a fs1 in (r, fs2, ev1 ++ ev2)
    | (Raise e, fs1, ev1) => (Raise e, fs1, ev1)
    end.

Definition get_fs : M FS := λ fs, (Ok fs, fs, []).

Definition emit (e : event) : M () := λ fs, (Ok (), fs, [e]).

Definition print (line : string) : M () := emit (Print line).

Definition lift {A} (r : result A) : M A := λ fs, (r, fs, []).

(** An operation of the environment that changes the file system. *)
Definition effect {A} (op : FS -> result A * FS) : M A :=
  λ fs, let '(r, fs') := op fs in (r, fs', []).

(** [try: body / except HTTPError as e: handler(e) / else: orelse(v)] *)
Definition try_except_HTTPError {A B}
    (body : M A) (handler : string -> M B) (orelse : A -> M B) : M B :=
  λ fs,
    match body fs with
    | (Ok a, fs1, ev1) =>
        let '(r, fs2, ev2) := orelse a fs1 in (r, fs2, ev1 ++ ev2)
    | (Raise (HTTPError msg), fs1, ev1) =>
        let '(r, fs2, ev2) := handler msg fs1 in (r, fs2, ev1 ++ ev2)
    | (Raise e, fs1, ev1) => (Raise e, fs1, ev1)
    end.

(** Leaving a [with] block: [cleanup] runs however [body] ends. *)
Definition finally {A} (body : M A) (cleanup : M ()) : M A :=
  λ fs,
    let '(r, fs1, ev1) := body fs in
    let '(_, fs2, ev2) := cleanup fs1 in
    (r, fs2, ev1 ++ ev2).

End Effects.

Notation "'let!' x ':=' m 'in' k" := (bind m (λ x, k))
  (at level 10, x pattern, m at level 100, k at level 200).
Notation "m ';;' k" := (bind m (λ _, k))
  (at level 100, k at level 200, right associativity).

(** ** The program *)

Section Program.
Context `{Env}.

(** The class attribute [Mod.out_dir], see [self_out_dir]. *)
Variable cls : option string.

Definition download_path (m : Mod) : string :=
  abspath (PosixPath.join (self_out_dir cls m) (package_name m)).

Definition exists_ (m : Mod) : M bool :=
  let! fs := get_fs in ret (path_exists fs (download_path m)).

Definition manifest_file (m : Mod) : string :=
  PosixPath.join (download_path m) "manifest.json".

Definition bepinex_dir (m : Mod) : string :=
  PosixPath.join (download_path m) BEPINEX.

Definition depends_on_bepinex (m : Mod) : M bool :=
  let! fs := get_fs in
  if existsb (Str.contains BEPINEX) (walk_dirs fs (download_path m)) then ret true
  else
    let! dependencies := lift (manifest_dependencies fs (manifest_file m)) in
    ret (existsb (Str.contains BEPINEX) dependencies).

Definition _is_bepinex_installed (game_dir : string) : M bool :=
  let! fs := get_fs in ret (path_exists fs (PosixPath.join game_dir BEPINEX)).

Definition _read_mods (mods_file : string) : M (gset Mod * option Mod) :=
  let! fs := get_fs in
  let! lines := lift (readlines fs mods_file) in
  let! parsed := lift (parse_lines lines) in
  let mods : gset Mod := list_to_set parsed in
  let bepinex_mods : gset Mod := filter (λ m, is_bepinex m = true) mods in
  if (1 <? size bepinex_mods)%nat then
    raise (ValueError ("Multiple " +:+ BEPINEX_PACKAGE_NAME +:+ " entries in '"
                         +:+ mods_file +:+ "' [" +:+ repr_set bepinex_mods +:+ "]"))
  else
    match elements bepinex_mods with
    | bepinex_mod :: _ => ret (mods ∖ {[bepinex_mod]}, Some bepinex_mod)
    | [] => ret (mods, None)
    end.

Definition _download (m : Mod) : M nat :=
  let! present := exists_ m in
  if present then ret 0%nat
  else
    emit (HttpGet (url m));;
    let! response := lift (session_get (url m)) in
    lift (raise_for_status response);;
    emit (ExtractAll (download_path m));;
    effect (extractall (content response) (download_path m));;
    ret 1%nat.

(** The files the install loop runs over. *)
Definition downloaded_files (m : Mod) (fs : FS) : list string :=
  List.filter
    (λ f, negb (str_in (Str.lower (PosixPath.basename f)) MOD_DIR_IGNORE)
          && negb (path_isdir fs (PosixPath.join (download_path m) f)))
    (glob_recursive fs (download_path m)).

(** The [for] loop of [_install]; [installed] is the flag so far. *)
Fixpoint install_files (m : Mod) (game_dir : string)
    (files : list string) (installed : bool) : M bool :=
  match files with
  | [] => ret installed
  | file :: rest =>
      let file_install_path := _get_file_install_path game_dir file (is_bepinex m) in
      let! fs := get_fs in
      if path_exists fs file_install_path then
        install_files m game_dir rest installed
      else
        emit (MakeDirs (PosixPath.dirname file_install_path));;
        effect (makedirs (PosixPath.dirname file_install_path));;
        let downloaded_file_path := PosixPath.join (download_path m) file in
        emit (Copy downloaded_file_path file_install_path);;
        effect (copy downloaded_file_path file_install_path);;
        install_files m game_dir rest true
  end.

Definition _install (m : Mod) (game_dir : string) : M nat :=
  let! depends := depends_on_bepinex m in
  if negb depends && negb (is_bepinex m) then
    print ("Unable to install " +:+ repr m +:+ " as it doesn't depend on " +:+ BEPINEX);;
    ret 0%nat
  else
    let! fs := get_fs in
    let! installed := install_files m game_dir (downloaded_files m fs) false in
    print (if installed then "Installed " +:+ repr m
           else "Skipping " +:+ repr m +:+ " (already installed)");;
    ret (if installed then 1%nat else 0%nat).

Definition _download_and_install_mod (m : Mod) (game_dir : string)
    : M (nat * nat * nat) :=
  try_except_HTTPError (_download m)
    (λ e, print ("Failed to download " +:+ repr m +:+ ": " +:+ e);;
          ret (0%nat, 0%nat, 1%nat))
    (λ ret_dl, let! ret_in := _install m game_dir in
               ret (ret_dl, ret_in, 0%nat)).

(** [ex.map(_func, mods)] followed by leaving the [with] block: every task
    runs to its end, whatever the others do; the pool keeps each task's
    result or exception.  Tasks are modelled as running one after the
    other, in the order [mods] is iterated. *)
Fixpoint pool_map (game_dir : string) (mods : list Mod)
    : FS -> list (result (nat * nat * nat)) * FS * list event :=
  λ fs,
    match mods with
    | [] => ([], fs, [])
    | m :: rest =>
        let '(r, fs1, ev1) := _download_and_install_mod m game_dir fs in
        let '(rs, fs2, ev2) := pool_map game_dir rest fs1 in
        (r :: rs, fs2, ev1 ++ ev2)
    end.

(** [downloaded, installed, errs = map(sum, zip( *results))]: reading the
    results re-raises the first stored exception; no result at all leaves
    nothing to unpack. *)
Definition aggregate (results : list (result (nat * nat * nat)))
    : result (nat * nat * nat) :=
  match collect results with
  | Raise e => Raise e
  | Ok [] => Raise (ValueError "not enough values to unpack (expected 3, got 0)")
  | Ok rs => Ok (sum3 rs)
  end.

Definition summary (downloaded installed errs tot : nat) : string :=
  "Downloaded " +:+ pretty downloaded +:+ "/" +:+ pretty tot
    +:+ ". Installed " +:+ pretty installed +:+ "/" +:+ pretty tot
    +:+ ". Errors: " +:+ pretty errs.

Definition _download_and_install_mods (mods : list Mod) (game_dir : string) : M () :=
  let! results := (λ fs, let '(rs, fs', ev) := pool_map game_dir mods fs in
                         (Ok rs, fs', ev)) in
  let! (downloaded, installed, errs) := lift (aggregate results) in
  let tot := length mods in
  print (summary downloaded installed errs tot).

End Program.

Section Main.
Context `{Env}.

(** The first half of the [with] block of [main], once [Mod.out_dir] is
    set: the framework is installed before anything else.  [false] stands
    for the two [return 1] of that half, [true] for going on to the pool. *)
Definition install_framework_first (args : Args) (cls : option string)
    (bepinex_mod : option Mod) : M bool :=
  let! installed := _is_bepinex_installed (game_dir args) in
  if negb installed then
    match bepinex_mod with
    | Some b =>
        let! (_, _, err) := _download_and_install_mod cls b (game_dir args) in
        if (err =? 1)%nat then ret false else ret true
    | None =>
        print (BEPINEX_PACKAGE_NAME +:+ " is not installed.");;
        print ("Add it to '" +:+ mods_file args +:+ "' or install it manually.");;
        print "See https://thunderstore.io/package/bbepis/BepInExPack";;
        ret false
    end
  else
    match bepinex_mod with
    | Some b => print ("Skipping " +:+ repr b +:+ " (already installed)");; ret true
    | None => ret true
    end.

(** The whole [with] block. *)
Definition main_body (args : Args) (cls : option string)
    (mods : gset Mod) (bepinex_mod : option Mod) : M nat :=
  let! go_on := install_framework_first args cls bepinex_mod in
  if negb go_on then ret 1%nat
  else
    _download_and_install_mods cls (elements mods) (game_dir args);;
    ret 0%nat.

Definition main (args : Args) : M nat :=
  let! fs := get_fs in
  if negb (path_isdir fs (game_dir args)) then
    print ("Game directory '" +:+ game_dir args +:+ "' does not exist.");;
    ret 1%nat
  else if truthy (args_out_dir args)
          && negb (path_isdir fs (default EmptyString (args_out_dir args))) then
    print ("Out directory '" +:+ default EmptyString (args_out_dir args)
             +:+ "' does not exist.");;
    ret 1%nat
  else
    let! (mods, bepinex_mod) := _read_mods (mods_file args) in
    if truthy (args_out_dir args) then
      main_body args (args_out_dir args) mods bepinex_mod
    else
      let! tmp := effect (λ fs, let '(d, fs') := mkdtemp fs in (Ok d, fs')) in
      finally (main_body args (Some tmp) mods bepinex_mod)
              (effect (λ fs, (Ok (), rmtree tmp fs))).

End Main.

(** ** Paths as lists of segments *)

(** The path with directories [dirs] and file name [base]. *)
Definition render (dirs : list string) (base : string) : string :=
  fold_right (λ d acc, d +:+ PosixPath.sep +:+ acc) base dirs.

(** The same, each directory followed by a separator of its own, a slash or
    a backslash, as archives written on another system have them. *)
Definition render_mixed (dirs : list (string * ascii)) (base : string) : string :=
  fold_right (λ ds acc, ds.1 +:+ String ds.2 acc) base dirs.

Definition is_sep_char (c : ascii) : bool :=
  Ascii.eqb c "/"%char || Ascii.eqb c (ascii_of_nat 92).

(** A segment holds no separator. *)
Definition plain (s : string) : bool := Str.all_chars (λ c, negb (is_sep_char c)) s.
Definition no_slash (s : string) : bool := negb (Str.contains_char "/"%char s).

Definition recognized (d : string) : bool :=
  str_in d [BEPINEX_PLUGINS_DIR; BEPINEX_PATCHERS_DIR; BEPINEX_CONFIG_DIR].

(** Where a path goes below the framework directory: kept when its first
    directory is a recognized one, below [plugins] otherwise. *)
Definition place (dirs : list string) (base : string) : string :=
  match dirs with
  | d :: _ =>
      if recognized d then render dirs base
      else BEPINEX_PLUGINS_DIR +:+ PosixPath.sep +:+ render dirs base
  | [] => BEPINEX_PLUGINS_DIR +:+ PosixPath.sep +:+ base
  end.

(** Every directory named [n] removed, and only a leading one. *)
Definition strip_every (n : string) (dirs : list string) : list string :=
  List.filter (λ d, negb (String.eqb d n)) dirs.

Definition strip_leading (n : string) (dirs : list string) : list string :=
  match dirs with
  | d :: rest => if String.eqb d n then rest else dirs
  | [] => []
  end.

Definition split_path (p : string) : list string * string :=
  let segs := Str.split p PosixPath.sep in
  (removelast segs, List.last segs EmptyString).

(** The resolver as the specification words it: separators normalized, a
    leading framework directory stripped, the first remaining segment
    inspected, the result joined below the game directory. *)
Definition spec_install_path (game_dir file : string) : string :=
  let '(dirs, base) := split_path (Str.replace file backslash PosixPath.sep) in
  game_dir +:+ PosixPath.sep +:+ BEPINEX +:+ PosixPath.sep
    +:+ place (strip_leading BEPINEX dirs) base.

(** For the framework's own archive, in the specification's words: only the
    leading package-name segment is stripped. *)
Definition spec_install_path_framework (game_dir file : string) : string :=
  let '(dirs, base) := split_path file in
  game_dir +:+ PosixPath.sep +:+ render (strip_leading BEPINEX_PACKAGE_NAME dirs) base.

(** A directory name that ends in [n] only when it is [n]. *)
Definition named_ok (n d : string) : bool :=
  String.eqb d n || negb (Str.endswith d n).

(** Such a name that holds no slash. *)
Definition segment_ok (n d : string) : bool := no_slash d && named_ok n d.

(** What the branch for the other packages asks of a directory name. *)
Definition mod_name_ok (d : string) : bool :=
  negb (String.eqb d EmptyString) && named_ok BEPINEX d.

(** The same on a directory and its separator: the name holds neither kind
    of separator. *)
Definition mod_dir_ok (ds : string * ascii) : bool :=
  plain ds.1 && is_sep_char ds.2 && mod_name_ok ds.1.

(** The check that opens [_install], as a value: [false] is the case the
    package is turned down. *)
Definition eligible `{Env} (cls : option string) (m : Mod) (fs : FS) : result bool :=
  match (depends_on_bepinex cls m fs).1.1 with
  | Ok depends => Ok (depends || is_bepinex m)
  | Raise e => Raise e
  end.

(** Every file the install loop runs over is where it resolves to. *)
Definition fully_installed `{Env} (cls : option string) (m : Mod) (game_dir : string)
    (fs : FS) : Prop :=
  forall file, In file (downloaded_files cls m fs) ->
    path_exists fs (_get_file_install_path game_dir file (is_bepinex m)) = true.

(** The value of [Mod.out_dir] and the file system with which [main] enters
    its [with] block, and the file system it leaves behind. *)
Definition enter `{Env} (args : Args) (fs : FS) : option string * FS :=
  if truthy (args_out_dir args) then (args_out_dir args, fs)
  else (Some (mkdtemp fs).1, (mkdtemp fs).2).

Definition leave `{Env} (args : Args) (cls : option string) (fs : FS) : FS :=
  if truthy (args_out_dir args) then fs
  else rmtree (default EmptyString cls) fs.

(** ** Reading a run *)

Definition result_of {S A} (run : result A * S * list event) : result A := run.1.1.
Definition fs_of {S A} (run : result A * S * list event) : S := run.1.2.
Definition events_of {S A} (run : result A * S * list event) : list event := run.2.

Definition is_copy (e : event) : bool :=
  match e with Copy _ _ => true | _ => false end.

Definition is_http_get (e : event) : bool :=
  match e with HttpGet _ => true | _ => false end.

(** The destinations of the copies of a trace, in order. *)
Definition copy_dests (ev : list event) : list string :=
  omap (λ e, match e with Copy _ dst => Some dst | _ => None end) ev.

(** The URLs requested in a trace, in order. *)
Definition requests (ev : list event) : list string :=
  omap (λ e, match e with HttpGet target => Some target | _ => None end) ev.

(** The events that write below the game directory. *)
Definition writes_game_dir (e : event) : bool :=
  match e with MakeDirs _ | Copy _ _ => true | _ => false end.

(** What the install loop does for the files it copies, in order: for each
    the directory of its target is made, then the file is copied there. *)
Definition copy_steps `{Env} (cls : option string) (m : Mod) (game_dir : string)
    (copied : list string) : list event :=
  flat_map
    (λ file,
       let target := _get_file_install_path game_dir file (is_bepinex m) in
       [MakeDirs (PosixPath.dirname target);
        Copy (PosixPath.join (download_path cls m) file) target])
    copied.

(** ** A small environment to run the program in

    A file system that is a list of files with their contents and a list of
    directories, and a remote repository that is a table from URLs to
    responses.  Archives are lists of members. *)

Module Toy.

Inductive data : Type :=
| Bytes (s : string)
| Text (lines : list string)
| Manifest (dependencies : list string).

Record fs : Type := mkFs {
  files : list (string * data);
  dirs : list string
}.

Definition archive : Type := list (string * data).

Fixpoint lookup {A} (p : string) (l : list (string * A)) : option A :=
  match l with
  | [] => None
  | (q, d) :: l' => if String.eqb p q then Some d else lookup p l'
  end.

Definition exists_ (s : fs) (p : string) : bool :=
  str_in p (dirs s) || bool_decide (is_Some (lookup p (files s))).

Definition isdir (s : fs) (p : string) : bool := str_in p (dirs s).

(** [p] relative to [top], when it lies below. *)
Definition below (top p : string) : option string :=
  if Str.startswith p (top +:+ "/")
  then Some (Str.drop (String.length top + 1) p)
  else None.

Definition glob (s : fs) (top : string) : list string :=
  omap (below top) (dirs s ++ map fst (files s)).

Definition walk (s : fs) (top : string) : list string :=
  map PosixPath.basename
    (List.filter (λ d, bool_decide (is_Some (below top d))) (dirs s)).

Definition manifest (s : fs) (p : string) : result (list string) :=
  match lookup p (files s) with
  | Some (Manifest deps) => Ok deps
  | Some _ => Raise (ValueError "Expecting value")
  | None => Raise (OSError "No such file or directory")
  end.

(** [p] and the directories above it, the root left out. *)
Fixpoint ancestors (fuel : nat) (p : string) : list string :=
  match fuel with
  | O => []
  | S k =>
      if String.eqb p EmptyString || String.eqb p "/" then []
      else p :: ancestors k (PosixPath.dirname p)
  end.

Definition add_dirs (new old : list string) : list string :=
  List.filter (λ d, negb (str_in d old)) new ++ old.

Definition mkdirs (p : string) (s : fs) : fs :=
  mkFs (files s) (add_dirs (ancestors (String.length p) p) (dirs s)).

Definition makedirs (p : string) (s : fs) : result () * fs :=
  if bool_decide (is_Some (lookup p (files s)))
  then (Raise (OSError "File exists"), s)
  else (Ok (), mkdirs p s).

Definition copy (src dst : string) (s : fs) : result () * fs :=
  match lookup src (files s) with
  | Some d => (Ok (), mkFs ((dst, d) :: files s) (dirs s))
  | None => (Raise (OSError "No such file or directory"), s)
  end.

Definition readlines (s : fs) (p : string) : result (list string) :=
  match lookup p (files s) with
  | Some (Text ls) => Ok ls
  | Some _ => Ok []
  | None => Raise (OSError "No such file or directory")
  end.

Definition extract_member (path : string) (member : string * data) (s : fs) : fs :=
  let target := PosixPath.join path member.1 in
  let s' := mkdirs (PosixPath.dirname target) s in
  mkFs ((target, member.2) :: files s') (dirs s').

Definition extractall (a : archive) (path : string) (s : fs) : result () * fs :=
  (Ok (), fold_left (λ acc member, extract_member path member acc) a s).

Definition tmp : string := "/tmp/tmpdir".

Definition mkdtemp (s : fs) : string * fs := (tmp, mkdirs tmp s).

Definition inside (d p : string) : bool :=
  String.eqb p d || Str.startswith p (d +:+ "/").

Definition rmtree (d : string) (s : fs) : fs :=
  mkFs (List.filter (λ f, negb (inside d f.1)) (files s))
       (List.filter (λ p, negb (inside d p)) (dirs s)).

Definition session_get (remote : list (string * Response archive)) (target : string)
    : result (Response archive) :=
  match lookup target remote with
  | Some r => Ok r
  | None => Ok (mkResponse 404%Z "Not Found" target [])
  end.

Definition env (remote : list (string * Response archive)) : Env :=
  Build_Env fs archive (λ p, p) exists_ isdir walk manifest glob
    makedirs copy readlines (session_get remote) extractall mkdtemp rmtree.

End Toy.

(** ** A run from end to end

    A game directory without the framework, a mods file naming the framework
    and two other packages, and a repository that serves all three. *)

Module Scenario.

Definition newline : string := String (ascii_of_nat 10) EmptyString.

Definition pack : Mod := mkMod "bbepis" "BepInExPack" "5.4.21" EmptyString.
Definition foo : Mod := mkMod "alice" "Foo" "1.0.0" EmptyString.
Definition bar : Mod := mkMod "bob" "Bar" "2.0.0" EmptyString.

Definition serve (m : Mod) (a : Toy.archive) : string * Response Toy.archive :=
  (url m, mkResponse 200%Z "OK" (url m) a).

Definition wants_framework : Toy.data := Toy.Manifest ["bbepis-BepInExPack-5.4.21"].

Definition remote : list (string * Response Toy.archive) :=
  [ serve pack [("BepInExPack/winhttp.dll", Toy.Bytes "w");
                ("BepInExPack/BepInEx/core/BepInEx.dll", Toy.Bytes "c");
                ("manifest.json", Toy.Manifest []);
                ("icon.png", Toy.Bytes "i")];
    serve foo [("plugins/Foo.dll", Toy.Bytes "f");
               ("manifest.json", wants_framework);
               ("README.md", Toy.Bytes "r")];
    serve bar [("Bar.dll", Toy.Bytes "b");
               ("manifest.json", wants_framework)] ].

Definition mods_txt : list string :=
  ["bbepis-BepInExPack-5.4.21" +:+ newline;
   "alice-Foo-1.0.0" +:+ newline;
   "bob-Bar-2.0.0" +:+ newline].

Definition disk : Toy.fs := Toy.mkFs [("/mods.txt", Toy.Text mods_txt)] ["/game"].

Definition args : Args := mkArgs "/game" "/mods.txt" None.

(** The same repository without [bar]: its request is answered 404. *)
Definition remote_without_bar : list (string * Response Toy.archive) :=
  [ serve pack [("BepInExPack/winhttp.dll", Toy.Bytes "w");
                ("BepInExPack/BepInEx/core/BepInEx.dll", Toy.Bytes "c");
                ("manifest.json", Toy.Manifest []);
                ("icon.png", Toy.Bytes "i")];
    serve foo [("plugins/Foo.dll", Toy.Bytes "f");
               ("manifest.json", wants_framework);
               ("README.md", Toy.Bytes "r")] ].

(** The disk once [foo] is in the cache under [/cache] and installed. *)
Definition disk_with_foo : Toy.fs :=
  Toy.mkFs
    [("/game/BepInEx/plugins/Foo.dll", Toy.Bytes "f");
     ("/cache/alice-Foo-1.0.0/plugins/Foo.dll", Toy.Bytes "f");
     ("/cache/alice-Foo-1.0.0/manifest.json", wants_framework);
     ("/cache/alice-Foo-1.0.0/README.md", Toy.Bytes "r")]
    ["/game"; "/game/BepInEx"; "/game/BepInEx/plugins"; "/cache";
     "/cache/alice-Foo-1.0.0"; "/cache/alice-Foo-1.0.0/plugins"].

(** The disk once [foo] is in the cache but not yet installed. *)
Definition disk_foo_cached : Toy.fs :=
  Toy.mkFs
    [("/cache/alice-Foo-1.0.0/plugins/Foo.dll", Toy.Bytes "f");
     ("/cache/alice-Foo-1.0.0/manifest.json", wants_framework);
     ("/cache/alice-Foo-1.0.0/README.md", Toy.Bytes "r")]
    ["/game"; "/game/BepInEx"; "/cache";
     "/cache/alice-Foo-1.0.0"; "/cache/alice-Foo-1.0.0/plugins"].

(** A mods file that names the framework twice, in two versions. *)
Definition two_frameworks : list string :=
  ["bbepis-BepInExPack-5.4.21" +:+ newline;
   "bbepis-BepInExPack-5.4.19" +:+ newline;
   "alice-Foo-1.0.0" +:+ newline].

Definition disk_two_frameworks : Toy.fs :=
  Toy.mkFs [("/mods.txt", Toy.Text two_frameworks)] ["/game"].

(** The framework's archive unpacked without its manifest, and with no
    directory in it. *)
Definition disk_pack_no_manifest : Toy.fs :=
  Toy.mkFs
    [("/cache/bbepis-BepInExPack-5.4.21/winhttp.dll", Toy.Bytes "w")]
    ["/game"; "/cache"; "/cache/bbepis-BepInExPack-5.4.21"].

(** A mods file that does not name the framework. *)
Definition disk_no_framework_entry : Toy.fs :=
  Toy.mkFs [("/mods.txt", Toy.Text ["alice-Foo-1.0.0" +:+ newline])] ["/game"].

(** The framework is in the game directory already. *)
Definition disk_framework_installed : Toy.fs :=
  Toy.mkFs [("/mods.txt", Toy.Text mods_txt)] ["/game"; "/game/BepInEx"].

End Scenario.

(* ================================================================= *)
(** * Properties *)

(** ** Strings *)

#[local] Arguments String.append !s1 s2 : simpl nomatch.
#[local] Arguments Ascii.eqb : simpl never.

Section StringFacts.

Lemma append_assoc (a b c : string) : (a +:+ b) +:+ c = a +:+ (b +:+ c).
Proof. induction a as [|x a IH]; simpl; [done | by f_equal]. Qed.

Lemma append_empty_r (a : string) : a +:+ EmptyString = a.
Proof. induction a as [|x a IH]; simpl; [done | by f_equal]. Qed.

Lemma length_append (a b : string) :
  String.length (a +:+ b) = (String.length a + String.length b)%nat.
Proof. induction a as [|x a IH]; simpl; [done | by f_equal]. Qed.

Lemma eqb_true (a b : string) : String.eqb a b = true -> a = b.
Proof. apply String.eqb_eq. Qed.

Lemma startswith_append (p r : string) : Str.startswith (p +:+ r) p = true.
Proof.
  induction p as [|x p IH]; simpl; [done |].
  by rewrite Ascii.eqb_refl.
Qed.

Lemma startswith_cons (a b : ascii) (p s : string) :
  Str.startswith (String b s) (String a p) = Ascii.eqb a b && Str.startswith s p.
Proof. done. Qed.

(** A match of [p/] at the start of [d/...] is a match of the whole
    segment [d]. *)
Lemma startswith_segment (p d r : string) :
  no_slash p = true -> no_slash d = true ->
  Str.startswith (d +:+ "/" +:+ r) (p +:+ "/") = true -> d = p.
Proof.
  unfold no_slash. revert d.
  induction p as [|a p IH]; intros [|b d]; simpl; intros Hp Hd Hpre.
  - done.
  - rewrite Ascii.eqb_sym in Hd. by destruct (Ascii.eqb "/" b).
  - by destruct (Ascii.eqb a "/").
  - destruct (Ascii.eqb_spec a b) as [->|]; [| done].
    destruct (Ascii.eqb b "/"); [done |].
    f_equal. by apply IH.
Qed.

Lemma startswith_contains_char (c : ascii) (q s : string) :
  Str.startswith s q = true ->
  Str.contains_char c q = true -> Str.contains_char c s = true.
Proof.
  revert s. induction q as [|a q IH]; intros [|b s]; simpl; try done.
  destruct (Ascii.eqb_spec a b) as [->|]; [| done].
  intros Hpre. destruct (Ascii.eqb b c); [done | by apply IH].
Qed.

Lemma contains_char_append (c : ascii) (a b : string) :
  Str.contains_char c (a +:+ b) = Str.contains_char c a || Str.contains_char c b.
Proof.
  induction a as [|x a IH]; simpl; [done |].
  by destruct (Ascii.eqb x c).
Qed.

Lemma endswith_refl (s : string) : Str.endswith s s = true.
Proof. destruct s; unfold Str.endswith; by rewrite String.eqb_refl. Qed.

End StringFacts.

(** ** [str.split] *)

Section Split.

Lemma render_cons (d : string) (dirs : list string) (base : string) :
  render (d :: dirs) base = d +:+ "/" +:+ render dirs base.
Proof. done. Qed.

Lemma strip_every_cons (n d : string) (dirs : list string) :
  strip_every n (d :: dirs)
  = if String.eqb d n then strip_every n dirs else d :: strip_every n dirs.
Proof. unfold strip_every. simpl. by destruct (String.eqb d n). Qed.

Lemma split_from_char (c x : ascii) (s : string) :
  Str.split_from (String c EmptyString) 0 (String x s)
  = if Ascii.eqb c x
    then (EmptyString, (Str.split_from (String c EmptyString) 0 s).1
                         :: (Str.split_from (String c EmptyString) 0 s).2)
    else (String x (Str.split_from (String c EmptyString) 0 s).1,
          (Str.split_from (String c EmptyString) 0 s).2).
Proof.
  simpl. rewrite andb_true_r.
  by destruct (Ascii.eqb c x), (Str.split_from (String c EmptyString) 0 s).
Qed.

(** A line has one segment more than it has separators. *)
Lemma split_char_length (c : ascii) (s : string) :
  length (Str.split s (String c EmptyString)) = S (Str.count_char c s).
Proof.
  unfold Str.split.
  assert (length (Str.split_from (String c EmptyString) 0 s).2 = Str.count_char c s) as Hlen.
  { induction s as [|x s IH]; [done |].
    rewrite split_from_char. simpl Str.count_char. rewrite (Ascii.eqb_sym x c).
    destruct (Ascii.eqb c x); simpl; by rewrite IH. }
  destruct (Str.split_from _ 0 s). simpl in *. by rewrite Hlen.
Qed.

Lemma join_cons_char (sep : string) (x : ascii) (h : string) (t : list string) :
  Str.join sep (String x h :: t) = String x (Str.join sep (h :: t)).
Proof. by destruct t. Qed.

(** Joining the segments of a string gives the string back. *)
Lemma join_split_char (c : ascii) (s : string) :
  Str.join (String c EmptyString) (Str.split s (String c EmptyString)) = s.
Proof.
  unfold Str.split.
  assert (Str.join (String c EmptyString)
            ((Str.split_from (String c EmptyString) 0 s).1
               :: (Str.split_from (String c EmptyString) 0 s).2) = s) as Hjoin.
  { induction s as [|x s IH]; [done |].
    rewrite split_from_char. destruct (Ascii.eqb_spec c x) as [<-|Hne]; cbn [fst snd].
    - change (Str.join ?sep (EmptyString :: ?h :: ?t))
        with (EmptyString +:+ sep +:+ Str.join sep (h :: t)).
      by rewrite IH.
    - by rewrite join_cons_char, IH. }
  by destruct (Str.split_from _ 0 s).
Qed.

(** No segment holds the separator. *)
Lemma split_char_plain (c : ascii) (s : string) :
  forallb (λ d, negb (Str.contains_char c d)) (Str.split s (String c EmptyString)) = true.
Proof.
  unfold Str.split.
  assert (forallb (λ d, negb (Str.contains_char c d))
            ((Str.split_from (String c EmptyString) 0 s).1
               :: (Str.split_from (String c EmptyString) 0 s).2) = true) as Hall.
  { induction s as [|x s IH]; [done |].
    rewrite split_from_char. destruct (Ascii.eqb_spec c x) as [<-|Hne]; cbn [fst snd].
    - exact IH.
    - simpl in *. destruct (Ascii.eqb_spec x c) as [->|_]; [done | exact IH]. }
  by destruct (Str.split_from _ 0 s).
Qed.

Lemma render_join (l : list string) :
  l <> [] -> render (removelast l) (List.last l EmptyString) = Str.join "/" l.
Proof.
  induction l as [|d [|d' l] IH]; [done | done |]. intros _.
  change (removelast (d :: d' :: l)) with (d :: removelast (d' :: l)).
  change (List.last (d :: d' :: l) EmptyString) with (List.last (d' :: l) EmptyString).
  rewrite render_cons, IH by done. done.
Qed.

Lemma forallb_removelast_last {A} (P : A -> bool) (l : list A) (x : A) :
  l <> [] -> forallb P l = true ->
  forallb P (removelast l) = true /\ P (List.last l x) = true.
Proof.
  induction l as [|a [|b l] IH]; [done | |].
  - simpl. intros _ Ha. by rewrite andb_true_r in Ha.
  - intros _ [Ha Hl]%andb_prop. destruct IH as [IH1 IH2]; [done | done |].
    change (removelast (a :: b :: l)) with (a :: removelast (b :: l)).
    change (List.last (a :: b :: l) x) with (List.last (b :: l) x).
    split; [| exact IH2].
    change (forallb P (a :: removelast (b :: l)))
      with (P a && forallb P (removelast (b :: l))).
    by rewrite Ha, IH1.
Qed.

(** A path is the rendering of its segments, and these hold no slash. *)
Lemma split_path_render (p : string) :
  render (split_path p).1 (split_path p).2 = p
  /\ forallb no_slash (split_path p).1 = true
  /\ no_slash (split_path p).2 = true.
Proof.
  unfold split_path, PosixPath.sep. cbn [fst snd].
  pose proof (join_split_char "/" p) as Hjoin.
  pose proof (split_char_plain "/" p) as Hplain.
  assert (Str.split p "/" <> []) as Hne.
  { unfold Str.split. by destruct (Str.split_from _ 0 p). }
  split; [by rewrite render_join |].
  by apply forallb_removelast_last.
Qed.

End Split.

(** ** [str.replace] on a path *)

Lemma drop_append (x r : string) : Str.drop (String.length x) (x +:+ r) = r.
Proof. induction x as [|c x IH]; simpl; [by destruct r | done]. Qed.

Lemma take_append (x r : string) : Str.take (String.length x) (x +:+ r) = x.
Proof. induction x as [|c x IH]; simpl; [by destruct r | by f_equal]. Qed.

Lemma replace_from_drop (old new : string) (k : nat) (s : string) :
  Str.replace_from old new k s = Str.replace_from old new 0 (Str.drop k s).
Proof.
  revert s. induction k as [|k IH]; intros [|c s]; simpl; try done.
Qed.

Lemma replace_from_cons (old new : string) (c : ascii) (s : string) :
  Str.replace_from old new 0 (String c s)
  = if Str.startswith (String c s) old
    then new +:+ Str.replace_from old new (String.length old - 1) s
    else String c (Str.replace_from old new 0 s).
Proof. done. Qed.

(** At a match, [new] is emitted and the scan goes on behind the match. *)
Lemma replace_from_hit (old new s : string) :
  Str.startswith s old = true -> old <> EmptyString ->
  Str.replace_from old new 0 s
  = new +:+ Str.replace_from old new 0 (Str.drop (String.length old) s).
Proof.
  intros Hpre Hne. destruct old as [|a old]; [done |].
  destruct s as [|c s]; [done |].
  rewrite replace_from_cons, Hpre. f_equal.
  simpl. rewrite Nat.sub_0_r. apply replace_from_drop.
Qed.

Section Replace.
(** [p] is the directory name looked for, [new] what replaces [p/]. *)
Variables p new : string.
Hypothesis p_plain : no_slash p = true.

Let old : string := p +:+ "/".

(** The directory [p] itself goes. *)
Lemma replace_from_match (r : string) :
  Str.replace_from old new 0 (p +:+ "/" +:+ r) = new +:+ Str.replace_from old new 0 r.
Proof.
  rewrite <- append_assoc. fold old.
  rewrite replace_from_hit.
  - by rewrite drop_append.
  - apply startswith_append.
  - unfold old. by destruct p.
Qed.

(** A directory whose name does not end in [p] stays. *)
Lemma replace_from_other (d r : string) :
  no_slash d = true -> Str.endswith d p = false ->
  Str.replace_from old new 0 (d +:+ "/" +:+ r)
  = d +:+ "/" +:+ Str.replace_from old new 0 r.
Proof.
  induction d as [|c d IH]; intros Hd Hend.
  - change (EmptyString +:+ "/" +:+ r) with (String "/" r).
    rewrite replace_from_cons.
    destruct (Str.startswith (String "/" r) old) eqn:Hpre; [| done].
    apply (startswith_segment p EmptyString r p_plain Hd) in Hpre.
    subst p. by rewrite endswith_refl in Hend.
  - change (String c d +:+ "/" +:+ r) with (String c (d +:+ "/" +:+ r)).
    rewrite replace_from_cons.
    destruct (Str.startswith (String c (d +:+ "/" +:+ r)) old) eqn:Hpre.
    + apply (startswith_segment p (String c d) r p_plain Hd) in Hpre.
      rewrite <- Hpre, endswith_refl in Hend. done.
    + simpl. f_equal. apply IH.
      * unfold no_slash in *. simpl in Hd. by destruct (Ascii.eqb c "/"); simpl in *.
      * unfold Str.endswith in Hend. fold Str.endswith in Hend.
        by destruct (String.eqb (String c d) p).
Qed.

(** Text without a slash holds no match. *)
Lemma replace_from_plain (b : string) :
  no_slash b = true -> Str.replace_from old new 0 b = b.
Proof.
  unfold no_slash. induction b as [|c b IH]; intros Hb; [done |].
  rewrite replace_from_cons.
  destruct (Str.startswith (String c b) old) eqn:Hpre.
  - apply (startswith_contains_char "/") in Hpre.
    + by rewrite Hpre in Hb.
    + unfold old. rewrite contains_char_append.
      apply orb_true_iff. by right.
  - f_equal. apply IH. simpl in Hb. by destruct (Ascii.eqb c "/"); simpl in *.
Qed.

Lemma replace_nonempty (s : string) :
  Str.replace s old new = Str.replace_from old new 0 s.
Proof. unfold Str.replace, old. by destruct p. Qed.

End Replace.

(** ** Paths given by their segments *)

Section Segments.

Lemma replace_render (n : string) (dirs : list string) (base : string) :
  no_slash n = true -> forallb (segment_ok n) dirs = true -> no_slash base = true ->
  Str.replace (render dirs base) (n +:+ "/") EmptyString
  = render (strip_every n dirs) base.
Proof.
  intros Hn Hdirs Hbase. rewrite replace_nonempty; [| done].
  induction dirs as [|d dirs IH].
  - by apply replace_from_plain.
  - simpl in Hdirs. apply andb_prop in Hdirs as [Hd Hdirs].
    apply andb_prop in Hd as [Hplain Hd].
    rewrite render_cons, strip_every_cons.
    destruct (String.eqb_spec d n) as [->|Hne].
    + rewrite replace_from_match; [| done]. simpl. by apply IH.
    + rewrite replace_from_other; [| done | done |].
      * by rewrite render_cons, IH.
      * unfold named_ok in Hd.
        apply orb_prop in Hd as [Heq%String.eqb_eq | Hend]; [done |].
        by destruct (Str.endswith d n).
Qed.

Lemma index_plain (b : string) :
  no_slash b = true -> Str.index b "/" = None.
Proof.
  unfold no_slash. induction b as [|c b IH]; intros Hb; [done |].
  simpl in *. destruct (Ascii.eqb_spec c "/") as [->|Hne]; [done |].
  rewrite Ascii.eqb_sym. destruct (Ascii.eqb_spec c "/"); [done |].
  simpl. by rewrite IH.
Qed.

Lemma index_segment (d r : string) :
  no_slash d = true -> Str.index (d +:+ "/" +:+ r) "/" = Some (String.length d).
Proof.
  unfold no_slash. induction d as [|c d IH]; intros Hd; [done |].
  simpl in *. destruct (Ascii.eqb_spec c "/") as [->|Hne]; [done |].
  rewrite Ascii.eqb_sym. destruct (Ascii.eqb_spec c "/"); [done |].
  simpl. by rewrite IH.
Qed.

Lemma startswith_slash_segment (d r : string) :
  d <> EmptyString -> no_slash d = true -> Str.startswith (d +:+ r) "/" = false.
Proof.
  unfold no_slash. destruct d as [|c d]; [done |]. intros _ Hd. simpl in *.
  rewrite Ascii.eqb_sym. by destruct (Ascii.eqb c "/").
Qed.

Lemma endswith_append_char (a b : string) (c : ascii) :
  b <> EmptyString ->
  Str.endswith (a +:+ b) (String c EmptyString) = Str.endswith b (String c EmptyString).
Proof.
  intros Hb. induction a as [|x a IH]; [done |].
  change (String x a +:+ b) with (String x (a +:+ b)).
  unfold Str.endswith at 1. fold Str.endswith. rewrite IH.
  destruct (String.eqb_spec (String x (a +:+ b)) (String c EmptyString)) as [Heq|]; [| done].
  injection Heq as _ Heq. destruct a; simpl in Heq; [done | done].
Qed.

(** [os.path.join] of a path below a non-empty directory. *)
Lemma join_below (a b : string) :
  a <> EmptyString -> Str.endswith a "/" = false -> Str.startswith b "/" = false ->
  PosixPath.join a b = a +:+ "/" +:+ b.
Proof.
  intros Ha Hend Hb. unfold PosixPath.join, PosixPath.sep. rewrite Hb, Hend.
  by destruct a.
Qed.

Lemma join_framework_dir (game_dir : string) :
  PosixPath.join game_dir BEPINEX <> EmptyString
  /\ Str.endswith (PosixPath.join game_dir BEPINEX) "/" = false.
Proof.
  unfold PosixPath.join. change (Str.startswith BEPINEX PosixPath.sep) with false.
  cbv iota.
  destruct (String.eqb game_dir EmptyString || Str.endswith game_dir PosixPath.sep).
  - split; [by destruct game_dir | by rewrite endswith_append_char].
  - split; [by destruct game_dir |].
    rewrite <- append_assoc. by rewrite endswith_append_char.
Qed.

(** Replacing one character by another is a map over the characters. *)
Lemma replace_char (a b : ascii) (s : string) :
  Str.replace s (String a EmptyString) (String b EmptyString)
  = Str.map_chars (λ c, if Ascii.eqb c a then b else c) s.
Proof.
  unfold Str.replace. induction s as [|c s IH]; [done |].
  rewrite replace_from_cons, startswith_cons. simpl Str.startswith.
  rewrite andb_true_r, Ascii.eqb_sym. simpl. rewrite IH.
  by destruct (Ascii.eqb c a).
Qed.

Lemma map_chars_append (f : ascii -> ascii) (a b : string) :
  Str.map_chars f (a +:+ b) = Str.map_chars f a +:+ Str.map_chars f b.
Proof. induction a as [|x a IH]; simpl; [done | by f_equal]. Qed.

Lemma map_chars_plain (d : string) :
  plain d = true ->
  Str.map_chars (λ c, if Ascii.eqb c (ascii_of_nat 92) then "/"%char else c) d = d.
Proof.
  unfold plain, is_sep_char. induction d as [|c d IH]; [done |]. simpl.
  intros [Hc Hd]%andb_prop. rewrite (IH Hd).
  by destruct (Ascii.eqb c (ascii_of_nat 92)); [rewrite orb_true_r in Hc |].
Qed.

Lemma plain_no_slash (d : string) : plain d = true -> no_slash d = true.
Proof.
  unfold plain, no_slash, is_sep_char. induction d as [|c d IH]; [done |]. simpl.
  intros [Hc Hd]%andb_prop. destruct (Ascii.eqb c "/"); [done | by apply IH].
Qed.

(** Normalizing the separators of a path gives the path with slashes. *)
Lemma normalize_render_mixed (dirs : list (string * ascii)) (base : string) :
  forallb mod_dir_ok dirs = true -> plain base = true ->
  Str.replace (render_mixed dirs base) backslash PosixPath.sep
  = render (map fst dirs) base.
Proof.
  intros Hdirs Hbase. unfold backslash, PosixPath.sep. rewrite replace_char.
  induction dirs as [|[d s] dirs IH]; simpl.
  - by apply map_chars_plain.
  - simpl in Hdirs. apply andb_prop in Hdirs as [Hd Hdirs].
    unfold mod_dir_ok in Hd. simpl in Hd.
    apply andb_prop in Hd as [Hd _]. apply andb_prop in Hd as [Hd Hs].
    rewrite map_chars_append, (map_chars_plain d Hd). f_equal.
    simpl. rewrite (IH Hdirs). f_equal.
    unfold is_sep_char in Hs.
    destruct (Ascii.eqb_spec s (ascii_of_nat 92)) as [->|]; [done |].
    rewrite orb_false_r in Hs. by apply Ascii.eqb_eq in Hs.
Qed.

End Segments.

(** ** The path resolver *)

Section Resolver.

Lemma forallb_filter {A} (P Q : A -> bool) (l : list A) :
  forallb P l = true -> forallb P (List.filter Q l) = true.
Proof.
  induction l as [|x l IH]; [done |]. simpl.
  intros [Hx Hl]%andb_prop. destruct (Q x); simpl; [rewrite Hx |]; by apply IH.
Qed.

Lemma forallb_and {A} (P Q : A -> bool) (l : list A) :
  forallb P l = true -> forallb Q l = true -> forallb (λ x, P x && Q x) l = true.
Proof.
  induction l as [|x l IH]; [done |]. simpl.
  intros [Hx Hl]%andb_prop [Hx' Hl']%andb_prop. by rewrite Hx, Hx', IH.
Qed.

Lemma startswith_slash_plain (b : string) :
  no_slash b = true -> Str.startswith b "/" = false.
Proof.
  unfold no_slash. destruct b as [|c b]; [done |]. simpl.
  rewrite (Ascii.eqb_sym "/" c). by destruct (Ascii.eqb c "/").
Qed.

Lemma join_plugins (file : string) :
  Str.startswith file "/" = false ->
  PosixPath.join BEPINEX_PLUGINS_DIR file = BEPINEX_PLUGINS_DIR +:+ "/" +:+ file.
Proof. intros Hf. by apply join_below. Qed.

Lemma join_all_framework (game_dir file : string) :
  Str.startswith file "/" = false ->
  PosixPath.join_all game_dir [BEPINEX; file]
  = PosixPath.join game_dir BEPINEX +:+ "/" +:+ file.
Proof.
  intros Hf. destruct (join_framework_dir game_dir) as [Hne Hend].
  simpl. by apply join_below.
Qed.

(** The resolver for the other packages, on a path whose normalized form is
    given by its segments. *)
Lemma resolve_mod_segments (game_dir file : string) (dirs : list string) (base : string) :
  Str.replace file backslash PosixPath.sep = render dirs base ->
  forallb (λ d, no_slash d && mod_name_ok d) dirs = true -> no_slash base = true ->
  _get_file_install_path game_dir file false
  = PosixPath.join game_dir BEPINEX +:+ "/" +:+ place (strip_every BEPINEX dirs) base.
Proof.
  intros Hnorm Hdirs Hbase. unfold _get_file_install_path.
  rewrite Hnorm. unfold PosixPath.sep.
  assert (forallb (segment_ok BEPINEX) dirs = true
          /\ forallb (λ d, negb (String.eqb d EmptyString) && no_slash d) dirs = true)
    as [Hseg Hne].
  { clear Hnorm. induction dirs as [|d dirs IH]; [done |]. cbn [forallb] in *.
    apply andb_prop in Hdirs as [Hd Hdirs]. destruct (IH Hdirs) as [IH1 IH2].
    apply andb_prop in Hd as [Hplain Hd]. unfold mod_name_ok in Hd.
    apply andb_prop in Hd as [Hd Hname].
    rewrite IH1, IH2. unfold segment_ok. by rewrite Hplain, Hname, Hd. }
  rewrite replace_render by done.
  apply (forallb_filter _ (λ d, negb (String.eqb d BEPINEX))) in Hne.
  fold (strip_every BEPINEX dirs) in Hne.
  destruct (strip_every BEPINEX dirs) as [|d rest]; unfold place, PosixPath.sep.
  - simpl render. rewrite index_plain by done.
    rewrite join_plugins by by apply startswith_slash_plain.
    by rewrite join_all_framework by reflexivity.
  - simpl in Hne. apply andb_prop in Hne as [Hd _]. apply andb_prop in Hd as [Hd1 Hd2].
    assert (d <> EmptyString) as Hd3 by (intros ->; done).
    rewrite render_cons, index_segment, take_append by done.
    fold (recognized d). destruct (recognized d); simpl negb; cbv iota.
    + rewrite join_all_framework; [done |]. by apply startswith_slash_segment.
    + rewrite join_plugins by by apply startswith_slash_segment.
      by rewrite join_all_framework by reflexivity.
Qed.

(** Slashes and backslashes are treated alike: a path written with either
    after each directory resolves as the path written with slashes. *)
Lemma resolve_mod_mixed (game_dir : string) (dirs : list (string * ascii)) (base : string) :
  forallb mod_dir_ok dirs = true -> plain base = true ->
  _get_file_install_path game_dir (render_mixed dirs base) false
  = PosixPath.join game_dir BEPINEX +:+ "/"
      +:+ place (strip_every BEPINEX (map fst dirs)) base.
Proof.
  intros Hdirs Hbase.
  apply resolve_mod_segments; [by apply normalize_render_mixed | | by apply plain_no_slash].
  clear Hbase. induction dirs as [|[d s] dirs IH]; [done |].
  cbn [forallb map fst] in *.
  apply andb_prop in Hdirs as [Hd Hdirs]. rewrite (IH Hdirs), andb_true_r.
  unfold mod_dir_ok in Hd. cbn [fst snd] in Hd.
  apply andb_prop in Hd as [Hd Hname]. apply andb_prop in Hd as [Hplain _].
  by rewrite (plain_no_slash d Hplain), Hname.
Qed.

End Resolver.

(** C1, as the code has it.  Take the path of a file of a package other than
    the framework, with its backslashes turned into slashes, and its
    directories.  When no directory name is empty and none ends in "BepInEx"
    except the name "BepInEx" itself, the resolver removes every directory
    named "BepInEx", wherever it stands; the path is then kept when its first
    directory is plugins, patchers or config, and put below plugins otherwise
    (a file with no directory left included); the result lies below
    <game_dir>/BepInEx/. *)
Theorem get_file_install_path_mod (game_dir file : string) :
  let path := Str.replace file backslash PosixPath.sep in
  forallb mod_name_ok (split_path path).1 = true ->
  _get_file_install_path game_dir file false
  = PosixPath.join game_dir BEPINEX +:+ "/"
      +:+ place (strip_every BEPINEX (split_path path).1) (split_path path).2.
Proof.
  intros path Hnames.
  destruct (split_path_render path) as (Hrender & Hdirs & Hbase).
  apply resolve_mod_segments; [done | by apply forallb_and | done].
Qed.

Lemma get_file_install_path_mod_witness :
  _get_file_install_path "/game" "plugins/Foo.dll" false = "/game/BepInEx/plugins/Foo.dll".
Proof. exact (get_file_install_path_mod "/game" "plugins/Foo.dll" eq_refl). Defined.

(** A directory whose name only ends in "BepInEx" loses that ending together
    with its slash, so the resolver and the specification's wording part. *)
Lemma get_file_install_path_mod_counterexample :
  _get_file_install_path "/game" "MyBepInEx/x.dll" false = "/game/BepInEx/plugins/Myx.dll"
  /\ spec_install_path "/game" "MyBepInEx/x.dll" = "/game/BepInEx/plugins/MyBepInEx/x.dll"
  /\ _get_file_install_path "/game" "MyBepInEx/x.dll" false
     <> spec_install_path "/game" "MyBepInEx/x.dll".
Proof. split; [reflexivity |]. split; [reflexivity |]. vm_compute. discriminate. Qed.

(** C2, as the code has it.  In the framework's own archive every directory
    named "BepInExPack" is removed from the path, not the leading one alone
    (no directory name ending in "BepInExPack" unless it is that name); what
    remains is joined below the game directory. *)
Theorem get_file_install_path_framework (game_dir file : string) :
  forallb (named_ok BEPINEX_PACKAGE_NAME) (split_path file).1 = true ->
  _get_file_install_path game_dir file true
  = PosixPath.join game_dir
      (render (strip_every BEPINEX_PACKAGE_NAME (split_path file).1) (split_path file).2).
Proof.
  intros Hnames.
  destruct (split_path_render file) as (Hrender & Hdirs & Hbase).
  unfold _get_file_install_path, PosixPath.sep.
  rewrite <- Hrender at 1. rewrite replace_render; [done | done | | done].
  by apply forallb_and.
Qed.

Lemma get_file_install_path_framework_witness :
  _get_file_install_path "/game" "BepInExPack/core/x.dll" true = "/game/core/x.dll".
Proof.
  exact (get_file_install_path_framework "/game" "BepInExPack/core/x.dll" eq_refl).
Defined.

(** The package name is stripped below the top of the archive too. *)
Lemma get_file_install_path_framework_counterexample :
  _get_file_install_path "/game" "BepInExPack/plugins/BepInExPack/x.dll" true
  = "/game/plugins/x.dll"
  /\ spec_install_path_framework "/game" "BepInExPack/plugins/BepInExPack/x.dll"
     = "/game/plugins/BepInExPack/x.dll"
  /\ _get_file_install_path "/game" "BepInExPack/plugins/BepInExPack/x.dll" true
     <> spec_install_path_framework "/game" "BepInExPack/plugins/BepInExPack/x.dll".
Proof. split; [reflexivity |]. split; [reflexivity |]. vm_compute. discriminate. Qed.

Example resolve_top_level_file :
  _get_file_install_path "/game" "Foo.dll" false = "/game/BepInEx/plugins/Foo.dll".
Proof. reflexivity. Qed.

Example resolve_backslashes :
  _get_file_install_path "/game" "BepInEx\plugins\Foo.dll" false
  = "/game/BepInEx/plugins/Foo.dll".
Proof. reflexivity. Qed.

Example resolve_below_the_top :
  _get_file_install_path "/game" "Foo/BepInEx/plugins/Foo.dll" false
  = "/game/BepInEx/plugins/Foo/plugins/Foo.dll".
Proof. reflexivity. Qed.

(** ** Base names *)

Section Basename.

Lemma rfind_absent (c : ascii) (s : string) :
  Str.contains_char c s = false -> Str.rfind s c = (-1)%Z.
Proof.
  induction s as [|x s IH]; [done |]. simpl.
  destruct (Ascii.eqb x c); [done |]. intros Hs. by rewrite (IH Hs).
Qed.

Lemma rfind_present (c : ascii) (s : string) :
  Str.contains_char c s = true -> (0 <= Str.rfind s c)%Z.
Proof.
  induction s as [|x s IH]; [done |]. simpl.
  destruct (Z.leb_spec 0 (Str.rfind s c)); [lia |].
  destruct (Ascii.eqb x c); [lia |]. intros Hs. specialize (IH Hs). lia.
Qed.

Lemma basename_plain (b : string) :
  Str.contains_char "/" b = false -> PosixPath.basename b = b.
Proof.
  intros Hb. unfold PosixPath.basename, PosixPath.sep_char.
  rewrite rfind_absent by done. by destruct b.
Qed.

Lemma basename_cons (x : ascii) (s : string) :
  PosixPath.basename (String x s)
  = if Str.contains_char "/" s then PosixPath.basename s
    else if Ascii.eqb x "/" then s else String x s.
Proof.
  unfold PosixPath.basename, PosixPath.sep_char. simpl Str.rfind.
  destruct (Str.contains_char "/" s) eqn:Hs.
  - pose proof (rfind_present _ _ Hs) as Hr.
    destruct (Z.leb_spec 0 (Str.rfind s "/")); [| lia].
    replace (Z.to_nat (Str.rfind s "/" + 1 + 1)) with (S (Z.to_nat (Str.rfind s "/" + 1)))
      by lia.
    done.
  - rewrite (rfind_absent _ _ Hs). simpl.
    by destruct (Ascii.eqb x "/").
Qed.

Lemma basename_append_sep (a b : string) :
  PosixPath.basename (a +:+ "/" +:+ b) = PosixPath.basename b.
Proof.
  induction a as [|x a IH].
  - change (EmptyString +:+ "/" +:+ b) with (String "/" b).
    rewrite basename_cons.
    destruct (Str.contains_char "/" b) eqn:Hb; [done |].
    by rewrite basename_plain.
  - change (String x a +:+ "/" +:+ b) with (String x (a +:+ "/" +:+ b)).
    rewrite basename_cons, contains_char_append. simpl.
    by rewrite orb_true_r.
Qed.

Lemma endswith_char_inv (a : string) (c : ascii) :
  Str.endswith a (String c EmptyString) = true ->
  exists a', a = a' +:+ String c EmptyString.
Proof.
  induction a as [|x a IH]; [done |].
  unfold Str.endswith. fold Str.endswith.
  destruct (String.eqb_spec (String x a) (String c EmptyString)) as [->|_].
  - intros _. by exists EmptyString.
  - intros [a' ->]%IH. by exists (String x a').
Qed.

(** Joining a path below a directory keeps its base name. *)
Lemma basename_join (a b : string) :
  PosixPath.basename (PosixPath.join a b) = PosixPath.basename b.
Proof.
  unfold PosixPath.join.
  destruct (Str.startswith b PosixPath.sep); [done |].
  destruct (String.eqb_spec a EmptyString) as [->|_]; [done |]. simpl orb.
  destruct (Str.endswith a PosixPath.sep) eqn:Hend.
  - apply endswith_char_inv in Hend as [a' ->].
    rewrite append_assoc. apply basename_append_sep.
  - apply basename_append_sep.
Qed.

End Basename.

(** ** Running the monad *)

Section Runs.
Context `{Env}.

Lemma run_bind {A B} (m : M A) (f : A -> M B) (fs : FS) :
  bind m f fs
  = match m fs with
    | (Ok a, fs1, ev1) => let '(r, fs2, ev2) := f a fs1 in (r, fs2, ev1 ++ ev2)
    | (Raise e, fs1, ev1) => (Raise e, fs1, ev1)
    end.
Proof. done. Qed.

Lemma run_bind_ok {A B} (m : M A) (f : A -> M B) (fs fs1 : FS) (a : A) (ev1 : list event) :
  m fs = (Ok a, fs1, ev1) ->
  bind m f fs = (result_of (f a fs1), fs_of (f a fs1), ev1 ++ events_of (f a fs1)).
Proof. intros Hm. rewrite run_bind, Hm. by destruct (f a fs1) as [[??]?]. Qed.

Lemma run_bind_raise {A B} (m : M A) (f : A -> M B) (fs fs1 : FS) (e : exn) (ev1 : list event) :
  m fs = (Raise e, fs1, ev1) -> bind m f fs = (Raise e, fs1, ev1).
Proof. intros Hm. by rewrite run_bind, Hm. Qed.

End Runs.

(** ** The install loop *)

Section InstallLoop.
Context `{Env}.
Variable cls : option string.
Variables (m : Mod) (game_dir : string).

Let target (file : string) : string :=
  _get_file_install_path game_dir file (is_bepinex m).
Let source (file : string) : string :=
  PosixPath.join (download_path cls m) file.

(** One round of the loop, written out. *)
Lemma install_files_cons (file : string) (rest : list string) (installed : bool) (fs : FS) :
  install_files cls m game_dir (file :: rest) installed fs
  = if path_exists fs (target file) then install_files cls m game_dir rest installed fs
    else
      match makedirs (PosixPath.dirname (target file)) fs with
      | (Raise e, fs1) => (Raise e, fs1, [MakeDirs (PosixPath.dirname (target file))])
      | (Ok _, fs1) =>
          match copy (source file) (target file) fs1 with
          | (Raise e, fs2) =>
              (Raise e, fs2, [MakeDirs (PosixPath.dirname (target file));
                              Copy (source file) (target file)])
          | (Ok _, fs2) =>
              let '(r, fs3, ev) := install_files cls m game_dir rest true fs2 in
              (r, fs3, MakeDirs (PosixPath.dirname (target file))
                         :: Copy (source file) (target file) :: ev)
          end
      end.
Proof.
  unfold target, source. simpl install_files.
  unfold bind at 1, get_fs at 1.
  destruct (path_exists fs _).
  - by destruct (install_files _ _ _ _ _ _) as [[??]?].
  - unfold bind, emit, effect.
    destruct (makedirs _ fs) as [[[]|e] fs1]; [| done].
    destruct (copy _ _ fs1) as [[[]|e] fs2]; [| done].
    by destruct (install_files _ _ _ _ _ _) as [[??]?].
Qed.

(** Every copy takes a file of the list to its resolved path. *)
Lemma install_files_copies (files : list string) (installed : bool) (fs : FS)
    (src dst : string) :
  In (Copy src dst) (events_of (install_files cls m game_dir files installed fs)) ->
  exists file, In file files /\ src = source file /\ dst = target file.
Proof.
  revert installed fs. induction files as [|file rest IH]; intros installed fs.
  - simpl. intros [].
  - rewrite install_files_cons.
    destruct (path_exists fs (target file)).
    { intros (f & ? & ?)%IH. exists f. split; [by right | done]. }
    destruct (makedirs _ fs) as [[[]|e] fs1].
    2:{ simpl. intros [? | []]. done. }
    destruct (copy _ _ fs1) as [[[]|e] fs2].
    2:{ simpl. intros [? | [Heq | []]]; [done |]. injection Heq as <- <-.
        exists file. split; [by left | done]. }
    specialize (IH true fs2).
    destruct (install_files cls m game_dir rest true fs2) as [[r fs3] ev].
    unfold events_of in *. simpl in *.
    intros [? | [Heq | Hin]]; [done | |].
    + injection Heq as <- <-. exists file. split; [by left | done].
    + destruct (IH Hin) as (f & ? & ?). exists f. split; [by right | done].
Qed.

(** The flag returned says whether a copy was made. *)
Lemma install_files_flag (files : list string) (installed : bool) (fs : FS) (b : bool) :
  result_of (install_files cls m game_dir files installed fs) = Ok b ->
  b = installed || existsb is_copy (events_of (install_files cls m game_dir files installed fs)).
Proof.
  revert installed fs. induction files as [|file rest IH]; intros installed fs.
  - simpl. unfold result_of, ret. simpl. intros [= <-]. by rewrite orb_false_r.
  - rewrite install_files_cons.
    destruct (path_exists fs (target file)); [apply IH |].
    destruct (makedirs _ fs) as [[[]|e] fs1]; [| done].
    destruct (copy _ _ fs1) as [[[]|e] fs2]; [| done].
    specialize (IH true fs2).
    destruct (install_files cls m game_dir rest true fs2) as [[r fs3] ev].
    unfold result_of, events_of in *. simpl in *.
    intros Hr. rewrite (IH Hr). by rewrite orb_true_r.
Qed.

(** When every target is there already, the loop does nothing. *)
Lemma install_files_present (files : list string) (installed : bool) (fs : FS) :
  (forall file, In file files -> path_exists fs (target file) = true) ->
  install_files cls m game_dir files installed fs = (Ok installed, fs, []).
Proof.
  induction files as [|file rest IH]; intros Hall; [done |].
  rewrite install_files_cons, (Hall file) by by left.
  apply IH. intros f Hf. apply Hall. by right.
Qed.

(** *** With a file system that keeps what it holds *)

Hypothesis makedirs_keeps : forall d fs p,
  path_exists fs p = true -> path_exists (makedirs d fs).2 p = true.
Hypothesis copy_keeps : forall s d fs p,
  path_exists fs p = true -> path_exists (copy s d fs).2 p = true.

(** No copy goes to a path that was there when the loop began. *)
Lemma install_files_fresh (files : list string) (installed : bool) (fs : FS)
    (src dst : string) :
  In (Copy src dst) (events_of (install_files cls m game_dir files installed fs)) ->
  path_exists fs dst = false.
Proof.
  revert installed fs. induction files as [|file rest IH]; intros installed fs.
  - simpl. intros [].
  - rewrite install_files_cons.
    destruct (path_exists fs (target file)) eqn:Hex; [apply IH |].
    pose proof (makedirs_keeps (PosixPath.dirname (target file)) fs dst) as Hmk.
    destruct (makedirs _ fs) as [[[]|e] fs1].
    2:{ simpl. intros [? | []]. done. }
    pose proof (copy_keeps (source file) (target file) fs1 dst) as Hcp.
    destruct (copy _ _ fs1) as [[[]|e] fs2].
    2:{ simpl. intros [? | [Heq | []]]; [done |]. by injection Heq as <- <-. }
    specialize (IH true fs2).
    destruct (install_files cls m game_dir rest true fs2) as [[r fs3] ev].
    unfold events_of in *. simpl in *.
    intros [? | [Heq | Hin]]; [done | |].
    + by injection Heq as <- <-.
    + specialize (IH Hin). destruct (path_exists fs dst); [| done].
      rewrite Hcp in IH; [done |]. by apply Hmk.
Qed.

Hypothesis copy_creates : forall s d fs,
  (copy s d fs).1 = Ok () -> path_exists (copy s d fs).2 d = true.

(** No two copies go to the same path. *)
Lemma install_files_distinct (files : list string) (installed : bool) (fs : FS) :
  List.NoDup (copy_dests (events_of (install_files cls m game_dir files installed fs))).
Proof.
  revert installed fs. induction files as [|file rest IH]; intros installed fs.
  - simpl. constructor.
  - rewrite install_files_cons.
    destruct (path_exists fs (target file)) eqn:Hex; [apply IH |].
    destruct (makedirs _ fs) as [[[]|e] fs1].
    2:{ simpl. constructor. }
    pose proof (copy_creates (source file) (target file) fs1) as Hcp.
    destruct (copy _ _ fs1) as [[[]|e] fs2].
    2:{ simpl. constructor; [intros [] | constructor]. }
    specialize (Hcp eq_refl). simpl in Hcp.
    pose proof (install_files_fresh rest true fs2) as Hfresh.
    specialize (IH true fs2).
    destruct (install_files cls m game_dir rest true fs2) as [[r fs3] ev].
    unfold events_of in *. simpl in *. constructor; [| done].
    intros Hin. unfold copy_dests in Hin.
    apply list_elem_of_In, list_elem_of_omap in Hin as (e & He & Hdst).
    destruct e as [| | | |s d]; try done. injection Hdst as ->.
    apply list_elem_of_In in He. apply Hfresh in He. congruence.
Qed.

(** What is there when the loop begins is there when it ends. *)
Lemma install_files_keeps (files : list string) (installed : bool) (fs : FS) (p : string) :
  path_exists fs p = true ->
  path_exists (fs_of (install_files cls m game_dir files installed fs)) p = true.
Proof.
  revert installed fs. induction files as [|file rest IH]; intros installed fs Hp; [done |].
  rewrite install_files_cons.
  destruct (path_exists fs (target file)); [by apply IH |].
  pose proof (makedirs_keeps (PosixPath.dirname (target file)) fs p Hp) as Hmk.
  destruct (makedirs _ fs) as [[[]|e] fs1]; [| done].
  pose proof (copy_keeps (source file) (target file) fs1 p Hmk) as Hcp.
  destruct (copy _ _ fs1) as [[[]|e] fs2]; [| done].
  specialize (IH true fs2 Hcp).
  by destruct (install_files cls m game_dir rest true fs2) as [[r fs3] ev].
Qed.

(** After a loop that ends well every file of the list is at its target. *)
Lemma install_files_all_there (files : list string) (installed b : bool) (fs : FS) :
  result_of (install_files cls m game_dir files installed fs) = Ok b ->
  forall file, In file files ->
    path_exists (fs_of (install_files cls m game_dir files installed fs)) (target file) = true.
Proof.
  revert installed fs. induction files as [|file rest IH]; intros installed fs Hok f Hf.
  - destruct Hf.
  - revert Hok. rewrite install_files_cons.
    destruct (path_exists fs (target file)) eqn:Hex.
    { intros Hok. destruct Hf as [<- | Hf]; [by apply install_files_keeps | by apply IH]. }
    destruct (makedirs _ fs) as [[[]|e] fs1]; [| done].
    pose proof (copy_creates (source file) (target file) fs1) as Hnew.
    destruct (copy _ _ fs1) as [[[]|e] fs2]; [| done].
    specialize (Hnew eq_refl). simpl in Hnew.
    pose proof (install_files_keeps rest true fs2 (target file) Hnew) as Hkept.
    specialize (IH true fs2).
    destruct (install_files cls m game_dir rest true fs2) as [[r fs3] ev].
    unfold result_of, fs_of in *. simpl in *. intros Hok.
    destruct Hf as [<- | Hf]; [done | by apply IH].
Qed.

End InstallLoop.

(** ** Install *)

Section Install.
Context `{Env}.
Variable cls : option string.

Lemma depends_on_bepinex_reads (m : Mod) (fs : FS) :
  depends_on_bepinex cls m fs = (result_of (depends_on_bepinex cls m fs), fs, []).
Proof.
  unfold depends_on_bepinex, bind, get_fs, lift, ret, result_of.
  destruct (existsb _ _); [done |].
  by destruct (manifest_dependencies _ _).
Qed.

(** [_install], written out. *)
Lemma _install_run (m : Mod) (game_dir : string) (fs : FS) :
  _install cls m game_dir fs
  = match eligible cls m fs with
    | Raise e => (Raise e, fs, [])
    | Ok false =>
        (Ok 0%nat, fs,
         [Print ("Unable to install " +:+ repr m +:+ " as it doesn't depend on " +:+ BEPINEX)])
    | Ok true =>
        let '(r, fs', ev) :=
          install_files cls m game_dir (downloaded_files cls m fs) false fs in
        match r with
        | Ok b =>
            (Ok (if b then 1%nat else 0%nat), fs',
             ev ++ [Print (if b then "Installed " +:+ repr m
                           else "Skipping " +:+ repr m +:+ " (already installed)")])
        | Raise e => (Raise e, fs', ev)
        end
    end.
Proof.
  unfold _install, eligible. rewrite run_bind, depends_on_bepinex_reads.
  unfold result_of.
  destruct ((depends_on_bepinex cls m fs).1.1) as [dep|e]; [| done].
  destruct dep, (is_bepinex m); cbn [negb andb orb fst snd];
    try (unfold bind, print, emit, ret; done);
    rewrite run_bind; unfold get_fs; rewrite run_bind;
    destruct (install_files _ _ _ _ _ _) as [[[b|e] fs'] ev]; try done;
    unfold bind, print, emit, ret; cbn [app]; by rewrite ?app_nil_r.
Qed.

(** The copies of [_install] are those of its loop. *)
Lemma _install_copies (m : Mod) (game_dir : string) (fs : FS) (src dst : string) :
  In (Copy src dst) (events_of (_install cls m game_dir fs)) ->
  In (Copy src dst)
     (events_of (install_files cls m game_dir (downloaded_files cls m fs) false fs)).
Proof.
  rewrite _install_run.
  destruct (eligible cls m fs) as [[]|e]; try (simpl; intros []; done).
  destruct (install_files _ _ _ _ _ _) as [[[b|e] fs'] ev]; unfold events_of; simpl.
  - rewrite in_app_iff. intros [? | [? | []]]; done.
  - done.
Qed.

End Install.

(** C3.  A file whose base name, in lower case, is readme.md, icon.png,
    manifest.json, changelog.md or license is never the source of a copy made
    by install, wherever in the extraction directory it lies. *)
Theorem install_skips_ignored `{Env} (cls : option string) (m : Mod)
    (game_dir : string) (fs : FS) (file dst : string) :
  str_in (Str.lower (PosixPath.basename file)) MOD_DIR_IGNORE = true ->
  ~ In (Copy (PosixPath.join (download_path cls m) file) dst)
       (events_of (_install cls m game_dir fs)).
Proof.
  intros Hignored Hin.
  apply _install_copies, install_files_copies in Hin as (f & Hf & Hsrc & _).
  apply (f_equal PosixPath.basename) in Hsrc. rewrite !basename_join in Hsrc.
  unfold downloaded_files in Hf. apply filter_In in Hf as [_ Hf].
  apply andb_prop in Hf as [Hf _]. rewrite <- Hsrc, Hignored in Hf. done.
Qed.

(** C4.  When the extraction directory of a descriptor is there, fetching it
    returns 0 without a request and without a write, and so does fetching it
    again. *)
Theorem download_present_noop `{Env} (cls : option string) (m : Mod) (fs : FS) :
  path_exists fs (download_path cls m) = true ->
  _download cls m fs = (Ok 0%nat, fs, [])
  /\ (_download cls m;; _download cls m) fs = (Ok 0%nat, fs, []).
Proof.
  intros Hex.
  assert (_download cls m fs = (Ok 0%nat, fs, [])) as Hrun.
  { unfold _download, exists_. rewrite !run_bind. unfold get_fs, ret. by rewrite Hex. }
  split; [done |]. by rewrite run_bind, Hrun, Hrun.
Qed.

(** C5.  On a file system where [makedirs] and [copy] remove nothing and a
    copy that succeeds leaves its destination in place: install copies to no
    path that was there before, and to no path twice; it returns 1 when it
    made a copy and 0 when it made none; on a package that is fully installed
    it copies nothing, changes nothing, says that the package is already
    installed and returns 0; and that is what a second install does after a
    first one that ended well, the extraction directory being as it was. *)
Theorem install_never_overwrites `{Env} (cls : option string) (m : Mod)
    (game_dir : string) (fs : FS) :
  (forall d fs p, path_exists fs p = true -> path_exists (makedirs d fs).2 p = true) ->
  (forall s d fs p, path_exists fs p = true -> path_exists (copy s d fs).2 p = true) ->
  (forall s d fs, (copy s d fs).1 = Ok () -> path_exists (copy s d fs).2 d = true) ->
  let run := _install cls m game_dir fs in
  let skipped :=
    (Ok 0%nat, [Print ("Skipping " +:+ repr m +:+ " (already installed)")]) in
  (forall src dst, In (Copy src dst) (events_of run) -> path_exists fs dst = false)
  /\ List.NoDup (copy_dests (events_of run))
  /\ (forall n, result_of run = Ok n ->
        n = if existsb is_copy (events_of run) then 1%nat else 0%nat)
  /\ (eligible cls m fs = Ok true -> fully_installed cls m game_dir fs ->
        run = (skipped.1, fs, skipped.2))
  /\ (forall n, result_of run = Ok n ->
        eligible cls m fs = Ok true -> eligible cls m (fs_of run) = Ok true ->
        downloaded_files cls m (fs_of run) = downloaded_files cls m fs ->
        _install cls m game_dir (fs_of run) = (skipped.1, fs_of run, skipped.2)).
Proof.
  intros Hmk Hcp Hnew run skipped.
  assert (forall fs', eligible cls m fs' = Ok true -> fully_installed cls m game_dir fs' ->
            _install cls m game_dir fs' = (skipped.1, fs', skipped.2)) as Hskip.
  { intros fs' Hel Hfull. rewrite _install_run, Hel.
    by rewrite (install_files_present cls m game_dir _ false fs' Hfull). }
  split; [| split; [| split; [| split]]].
  - intros src dst Hin. apply _install_copies in Hin.
    by apply (install_files_fresh cls m game_dir Hmk Hcp) in Hin.
  - subst run. rewrite _install_run.
    pose proof (install_files_distinct cls m game_dir Hmk Hcp Hnew
                  (downloaded_files cls m fs) false fs) as Hnd.
    destruct (eligible cls m fs) as [[]|e]; try (simpl; constructor).
    destruct (install_files _ _ _ _ _ _) as [[[b|e] fs'] ev];
      unfold events_of in *; simpl in *; [| done].
    unfold copy_dests. rewrite omap_app. simpl. by rewrite app_nil_r.
  - subst run. rewrite _install_run. intros n.
    pose proof (install_files_flag cls m game_dir (downloaded_files cls m fs) false fs) as Hflag.
    destruct (eligible cls m fs) as [[]|e]; try (simpl; by intros [= <-]).
    destruct (install_files _ _ _ _ _ _) as [[[b|e] fs'] ev];
      unfold events_of, result_of in *; simpl in *; [| done].
    intros [= <-]. rewrite (Hflag b eq_refl), existsb_app. simpl.
    rewrite orb_false_r. by destruct (existsb is_copy ev).
  - by apply Hskip.
  - intros n Hok Hel Hel' Hsame. apply Hskip; [done |].
    intros file Hfile. rewrite Hsame in Hfile.
    revert Hok Hfile. subst run. rewrite _install_run, Hel.
    pose proof (install_files_all_there cls m game_dir Hmk Hcp Hnew
                  (downloaded_files cls m fs) false) as Hthere.
    destruct (install_files _ _ _ _ _ _) as [[[b|e] fs'] ev] eqn:Hloop; [| done].
    intros _ Hfile. specialize (Hthere b fs). rewrite Hloop in Hthere.
    by apply (Hthere eq_refl).
Qed.

(** ** Downloads, the pool and the whole run *)

Section Pool.
Context `{Env}.
Variable cls : option string.

(** [_download] of a package that is not there, written out. *)
Lemma _download_absent (m : Mod) (fs : FS) :
  path_exists fs (download_path cls m) = false ->
  _download cls m fs
  = match session_get (url m) with
    | Raise e => (Raise e, fs, [HttpGet (url m)])
    | Ok response =>
        match raise_for_status response with
        | Raise e => (Raise e, fs, [HttpGet (url m)])
        | Ok _ =>
            let '(r, fs') := extractall (content response) (download_path cls m) fs in
            (match r with Ok _ => Ok 1%nat | Raise e => Raise e end, fs',
             [HttpGet (url m); ExtractAll (download_path cls m)])
        end
    end.
Proof.
  intros Hex. unfold _download, exists_. rewrite !run_bind. unfold get_fs, ret.
  rewrite Hex. unfold bind, emit, lift, effect.
  destruct (session_get (url m)) as [response|e]; [| done].
  destruct (raise_for_status response) as [[]|e]; [| done].
  by destruct (extractall _ _ fs) as [[[]|e] fs'].
Qed.

(** When unpacking an archive leaves its directory in place, a download that
    ended well is not repeated. *)
Lemma _download_twice (m : Mod) (fs : FS) (n : nat) :
  (forall c p fs, (extractall c p fs).1 = Ok () -> path_exists (extractall c p fs).2 p = true) ->
  result_of (_download cls m fs) = Ok n ->
  _download cls m (fs_of (_download cls m fs))
  = (Ok 0%nat, fs_of (_download cls m fs), []).
Proof.
  intros Hextract Hok.
  assert (forall fs', path_exists fs' (download_path cls m) = true ->
            _download cls m fs' = (Ok 0%nat, fs', [])) as Hnoop.
  { intros fs' Hex. unfold _download, exists_. rewrite !run_bind.
    unfold get_fs, ret. by rewrite Hex. }
  destruct (path_exists fs (download_path cls m)) eqn:Hex.
  { rewrite (Hnoop fs Hex). by apply Hnoop. }
  revert Hok. rewrite (_download_absent m fs Hex).
  destruct (session_get (url m)) as [response|e]; [| done].
  destruct (raise_for_status response) as [[]|e]; [| done].
  pose proof (Hextract (content response) (download_path cls m) fs) as Hthere.
  destruct (extractall _ _ fs) as [[[]|e] fs']; [| done].
  intros _. apply Hnoop. by apply Hthere.
Qed.

Lemma raise_for_status_error {C} (r : Response C) :
  (400 <= status_code r < 600)%Z ->
  exists msg, http_error_msg r = Some msg /\ raise_for_status r = Raise (HTTPError msg).
Proof.
  intros Hcode. unfold raise_for_status, http_error_msg.
  destruct (Z.leb_spec 400 (status_code r)); [| lia].
  destruct (Z.ltb_spec (status_code r) 500); simpl; [by eexists |].
  destruct (Z.leb_spec 500 (status_code r)); [| lia].
  destruct (Z.ltb_spec (status_code r) 600); simpl; [by eexists | lia].
Qed.

Lemma pool_map_app (game_dir : string) (l1 l2 : list Mod) (fs : FS) :
  pool_map cls game_dir (l1 ++ l2) fs
  = let '(rs1, fs1, ev1) := pool_map cls game_dir l1 fs in
    let '(rs2, fs2, ev2) := pool_map cls game_dir l2 fs1 in
    (rs1 ++ rs2, fs2, ev1 ++ ev2).
Proof.
  revert fs. induction l1 as [|m l1 IH]; intros fs; simpl.
  - by destruct (pool_map cls game_dir l2 fs) as [[??]?].
  - destruct (_download_and_install_mod cls m game_dir fs) as [[r fs1] ev1].
    rewrite IH.
    destruct (pool_map cls game_dir l1 fs1) as [[rs1 fs2] ev2].
    destruct (pool_map cls game_dir l2 fs2) as [[rs2 fs3] ev3].
    by rewrite app_assoc.
Qed.

Lemma pool_map_length (game_dir : string) (l : list Mod) (fs : FS) :
  length (pool_map cls game_dir l fs).1.1 = length l.
Proof.
  revert fs. induction l as [|m l IH]; intros fs; simpl; [done |].
  destruct (_download_and_install_mod cls m game_dir fs) as [[r fs1] ev1].
  specialize (IH fs1). destruct (pool_map cls game_dir l fs1) as [[rs fs2] ev2].
  simpl in *. by rewrite IH.
Qed.

(** [_download_and_install_mods], written out. *)
Lemma _download_and_install_mods_run (mods : list Mod) (game_dir : string) (fs : FS) :
  _download_and_install_mods cls mods game_dir fs
  = let '(rs, fs', ev) := pool_map cls game_dir mods fs in
    match aggregate rs with
    | Ok (downloaded, installed, errs) =>
        (Ok (), fs', ev ++ [Print (summary downloaded installed errs (length mods))])
    | Raise e => (Raise e, fs', ev)
    end.
Proof.
  unfold _download_and_install_mods. rewrite run_bind.
  destruct (pool_map cls game_dir mods fs) as [[rs fs'] ev].
  unfold bind, lift, print, emit.
  destruct (aggregate rs) as [[[d i] e]|e]; [done | by rewrite app_nil_r].
Qed.

Lemma collect_app {A} (l1 l2 : list (result A)) (r1 r2 : list A) :
  collect l1 = Ok r1 -> collect l2 = Ok r2 -> collect (l1 ++ l2) = Ok (r1 ++ r2).
Proof.
  revert r1. induction l1 as [|[a|e] l1 IH]; intros r1; simpl.
  - by intros [= <-].
  - destruct (collect l1) as [l|e]; [| done]. intros [= <-] H2.
    by rewrite (IH l eq_refl H2).
  - done.
Qed.

Lemma sum3_error (r1 r2 : list (nat * nat * nat)) :
  sum3 (r1 ++ (0, 0, 1)%nat :: r2)
  = ((sum3 (r1 ++ r2)).1.1, (sum3 (r1 ++ r2)).1.2, S (sum3 (r1 ++ r2)).2).
Proof.
  unfold sum3. rewrite !sum_list_with_app. simpl. f_equal; try f_equal; lia.
Qed.

End Pool.

Section Whole.
Context `{Env}.

(** The [with] block once the framework is in place. *)
Lemma main_body_go_on (args : Args) (cls : option string) (mods : gset Mod)
    (bepinex_mod : option Mod) (fs fs1 : FS) (ev1 : list event) :
  install_framework_first args cls bepinex_mod fs = (Ok true, fs1, ev1) ->
  main_body args cls mods bepinex_mod fs
  = let '(rs, fs2, ev2) := pool_map cls (game_dir args) (elements mods) fs1 in
    match aggregate rs with
    | Ok (downloaded, installed, errs) =>
        (Ok 0%nat, fs2,
         ev1 ++ ev2 ++ [Print (summary downloaded installed errs (size mods))])
    | Raise e => (Raise e, fs2, ev1 ++ ev2)
    end.
Proof.
  intros Hfirst. unfold main_body. rewrite run_bind, Hfirst. cbn [negb].
  rewrite run_bind, _download_and_install_mods_run.
  destruct (pool_map cls (game_dir args) (elements mods) fs1) as [[rs fs2] ev2].
  destruct (aggregate rs) as [[[d i] e]|e]; [| done].
  unfold ret. by rewrite app_nil_r.
Qed.

End Whole.

Section MainRun.
Context `{Env}.

Lemma _read_mods_reads (file : string) (fs : FS) :
  _read_mods file fs = (result_of (_read_mods file fs), fs, []).
Proof.
  unfold _read_mods, result_of, bind, get_fs, lift, raise, ret.
  destruct (readlines fs file) as [lines|e]; [| done].
  destruct (parse_lines lines) as [parsed|e]; [| done].
  destruct (1 <? size _)%nat; [done |].
  by destruct (elements _).
Qed.

(** [main] up to its [with] block, and out of it. *)
Lemma main_run (args : Args) (fs : FS) (mods : gset Mod) (bepinex_mod : option Mod) :
  path_isdir fs (game_dir args) = true ->
  (truthy (args_out_dir args) = true ->
   path_isdir fs (default EmptyString (args_out_dir args)) = true) ->
  result_of (_read_mods (mods_file args) fs) = Ok (mods, bepinex_mod) ->
  main args fs
  = let run := main_body args (enter args fs).1 mods bepinex_mod (enter args fs).2 in
    (result_of run, leave args (enter args fs).1 (fs_of run), events_of run).
Proof.
  intros Hgame Hout Hread. unfold main. rewrite run_bind. unfold get_fs at 1.
  rewrite Hgame. cbn [negb]. unfold enter, leave.
  destruct (truthy (args_out_dir args)) eqn:Htruthy.
  - rewrite (Hout eq_refl). cbn [negb andb].
    rewrite run_bind, _read_mods_reads, Hread. cbn [fst snd].
    by destruct (main_body _ _ _ _ _) as [[??]?].
  - cbn [andb]. rewrite run_bind, _read_mods_reads, Hread.
    rewrite run_bind. unfold effect at 1.
    destruct (mkdtemp fs) as [tmp fsT]. cbn [fst snd default].
    unfold finally, effect.
    destruct (main_body _ _ _ _ _) as [[??]?].
    unfold result_of, fs_of, events_of. simpl. by rewrite app_nil_r.
Qed.

End MainRun.

(** C6.  A package that is not in the cache and whose request is answered
    with a status from 400 to 599: its task catches the error and returns
    (0, 0, 1), leaving the file system as it was; in the pool the packages
    before and after it run as they would without it; and when no other task
    raises, the run prints a summary with one more error and returns 0. *)
Theorem download_failure_isolated `{Env} (cls : option string) (m : Mod)
    (dir : string) (fs : FS) (resp : Response Content) :
  path_exists fs (download_path cls m) = false ->
  session_get (url m) = Ok resp ->
  (400 <= status_code resp < 600)%Z ->
  exists msg, http_error_msg resp = Some msg /\
    let failure :=
      [HttpGet (url m); Print ("Failed to download " +:+ repr m +:+ ": " +:+ msg)] in
    _download_and_install_mod cls m dir fs = (Ok (0, 0, 1)%nat, fs, failure)
    /\ (forall before after fs0,
          (pool_map cls dir before fs0).1.2 = fs ->
          pool_map cls dir (before ++ m :: after) fs0
          = ((pool_map cls dir before fs0).1.1
               ++ Ok (0, 0, 1)%nat :: (pool_map cls dir after fs).1.1,
             (pool_map cls dir after fs).1.2,
             (pool_map cls dir before fs0).2 ++ failure ++ (pool_map cls dir after fs).2))
    /\ (forall args fs0 mods bepinex_mod fs1 ev1 before after r1 r2,
          game_dir args = dir ->
          path_isdir fs0 dir = true ->
          (truthy (args_out_dir args) = true ->
           path_isdir fs0 (default EmptyString (args_out_dir args)) = true) ->
          result_of (_read_mods (mods_file args) fs0) = Ok (mods, bepinex_mod) ->
          (enter args fs0).1 = cls ->
          install_framework_first args cls bepinex_mod (enter args fs0).2
            = (Ok true, fs1, ev1) ->
          elements mods = before ++ m :: after ->
          (pool_map cls dir before fs1).1.2 = fs ->
          collect (pool_map cls dir before fs1).1.1 = Ok r1 ->
          collect (pool_map cls dir after fs).1.1 = Ok r2 ->
          result_of (main args fs0) = Ok 0%nat
          /\ List.last (events_of (main args fs0)) (Print EmptyString)
             = Print (summary (sum3 (r1 ++ r2)).1.1 (sum3 (r1 ++ r2)).1.2
                              (S (sum3 (r1 ++ r2)).2) (size mods))).
Proof.
  intros Hex Hget Hcode.
  destruct (raise_for_status_error resp Hcode) as (msg & Hmsg & Hraise).
  exists msg. split; [done |]. intros failure.
  assert (_download_and_install_mod cls m dir fs = (Ok (0, 0, 1)%nat, fs, failure)) as Htask.
  { unfold _download_and_install_mod, try_except_HTTPError.
    rewrite (_download_absent cls m fs Hex), Hget, Hraise.
    unfold bind, print, emit, ret. done. }
  assert (forall before after fs0,
          (pool_map cls dir before fs0).1.2 = fs ->
          pool_map cls dir (before ++ m :: after) fs0
          = ((pool_map cls dir before fs0).1.1
               ++ Ok (0, 0, 1)%nat :: (pool_map cls dir after fs).1.1,
             (pool_map cls dir after fs).1.2,
             (pool_map cls dir before fs0).2 ++ failure ++ (pool_map cls dir after fs).2))
    as Hpool.
  { intros before after fs0 Hfs. rewrite pool_map_app.
    destruct (pool_map cls dir before fs0) as [[rs1 fs1] ev1]. simpl in Hfs. subst fs1.
    simpl pool_map. rewrite Htask.
    by destruct (pool_map cls dir after fs) as [[rs2 fs2] ev2]. }
  split; [done |]. split; [done |].
  intros args fs0 mods bepinex_mod fs1 ev1 before after r1 r2
         Hdir Hgame Hout Hread Hcls Hfirst Helems Hfs Hr1 Hr2.
  rewrite (main_run args fs0 mods bepinex_mod) by (by rewrite ?Hdir).
  rewrite Hcls, (main_body_go_on args cls mods bepinex_mod _ fs1 ev1 Hfirst).
  rewrite Hdir, Helems, (Hpool before after fs1 Hfs).
  unfold aggregate. rewrite (collect_app _ _ r1 ((0, 0, 1)%nat :: r2) Hr1).
  2:{ simpl. by rewrite Hr2. }
  destruct (r1 ++ (0, 0, 1)%nat :: r2) as [|x l] eqn:Hl; [by destruct r1 |].
  rewrite <- Hl, sum3_error. unfold result_of, events_of. cbn [fst snd].
  split; [done |]. rewrite !app_assoc. apply last_last.
Qed.

(** ** Reading the mods file *)

Section ReadMods.
Context `{Env}.

Lemma two_frameworks_size (parsed : list Mod) (b1 b2 : Mod) :
  In b1 parsed -> In b2 parsed -> b1 <> b2 ->
  is_bepinex b1 = true -> is_bepinex b2 = true ->
  (1 <? size (filter (λ m, is_bepinex m = true) (list_to_set parsed : gset Mod)))%nat = true.
Proof.
  intros Hin1 Hin2 Hne Hb1 Hb2. apply Nat.ltb_lt.
  set (X := filter _ _).
  assert (({[b1]} ∪ {[b2]} : gset Mod) ⊆ X) as Hsub.
  { intros x Hx. apply elem_of_filter.
    apply elem_of_union in Hx as [->%elem_of_singleton | ->%elem_of_singleton];
      (split; [done |]); apply elem_of_list_to_set, list_elem_of_In; done. }
  apply subseteq_size in Hsub.
  rewrite size_union, !size_singleton in Hsub; [lia |].
  by apply disjoint_singleton_l, not_elem_of_singleton.
Qed.

Lemma _read_mods_one_framework (file : string) (fs : FS) (lines : list string)
    (parsed : list Mod) (b : Mod) :
  readlines fs file = Ok lines -> parse_lines lines = Ok parsed ->
  filter (λ m, is_bepinex m = true) (list_to_set parsed : gset Mod) = {[b]} ->
  result_of (_read_mods file fs) = Ok (list_to_set parsed ∖ {[b]}, Some b).
Proof.
  intros Hlines Hparsed Hone.
  unfold _read_mods, result_of, bind, get_fs, lift, raise, ret.
  rewrite Hlines, Hparsed, Hone, size_singleton, elements_singleton. done.
Qed.

End ReadMods.

(** C7.  A mods file that parses and names two different framework entries:
    reading it raises ValueError, and [main], once past its directory checks,
    ends with that error having touched nothing, no request and no write. *)
Theorem multiple_frameworks_fatal `{Env} (file : string) (fs : FS)
    (lines : list string) (parsed : list Mod) (b1 b2 : Mod) :
  readlines fs file = Ok lines -> parse_lines lines = Ok parsed ->
  In b1 parsed -> In b2 parsed -> b1 <> b2 ->
  is_bepinex b1 = true -> is_bepinex b2 = true ->
  let error :=
    ValueError ("Multiple " +:+ BEPINEX_PACKAGE_NAME +:+ " entries in '" +:+ file +:+ "' ["
                  +:+ repr_set (filter (λ m, is_bepinex m = true)
                                       (list_to_set parsed : gset Mod)) +:+ "]") in
  _read_mods file fs = (Raise error, fs, [])
  /\ (forall args,
        mods_file args = file ->
        path_isdir fs (game_dir args) = true ->
        (truthy (args_out_dir args) = true ->
         path_isdir fs (default EmptyString (args_out_dir args)) = true) ->
        main args fs = (Raise error, fs, [])).
Proof.
  intros Hlines Hparsed Hin1 Hin2 Hne Hb1 Hb2 error.
  assert (_read_mods file fs = (Raise error, fs, [])) as Hread.
  { unfold _read_mods, bind, get_fs, lift, raise.
    rewrite Hlines, Hparsed.
    by rewrite (two_frameworks_size parsed b1 b2). }
  split; [done |]. intros args Hfile Hgame Hout.
  unfold main. rewrite run_bind. unfold get_fs at 1. rewrite Hgame. cbn [negb].
  destruct (truthy (args_out_dir args)) eqn:Htruthy.
  - rewrite (Hout eq_refl). cbn [negb andb]. by rewrite run_bind, Hfile, Hread.
  - cbn [andb]. by rewrite run_bind, Hfile, Hread.
Qed.

(** ** The framework first, then the pool *)

Section FrameworkFirst.
Context `{Env}.

(** The framework is missing, the mods file names it, and fetching and
    installing it ends without an error. *)
Lemma install_framework_first_ok (args : Args) (cls : option string) (b : Mod)
    (fs : FS) (d i : nat) :
  path_exists fs (PosixPath.join (game_dir args) BEPINEX) = false ->
  result_of (_download_and_install_mod cls b (game_dir args) fs) = Ok (d, i, 0%nat) ->
  install_framework_first args cls (Some b) fs
  = (Ok true, fs_of (_download_and_install_mod cls b (game_dir args) fs),
     events_of (_download_and_install_mod cls b (game_dir args) fs)).
Proof.
  intros Hmissing Hfirst. unfold install_framework_first, _is_bepinex_installed.
  rewrite !run_bind. unfold get_fs, ret at 1. rewrite Hmissing. cbn [negb].
  rewrite run_bind.
  destruct (_download_and_install_mod cls b (game_dir args) fs) as [[r fs1] ev1].
  unfold result_of in Hfirst. simpl in Hfirst. subst r.
  unfold fs_of, events_of, ret. simpl. by rewrite app_nil_r.
Qed.

Lemma aggregate_two (rs : list (result (nat * nat * nat))) :
  length rs = 2%nat -> Forall (λ r, r = Ok (1, 1, 0)%nat) rs ->
  aggregate rs = Ok (2, 2, 0)%nat.
Proof.
  destruct rs as [|r1 [|r2 [|r3 rs]]]; try done. intros _ Hall.
  apply Forall_cons in Hall as [-> Hall]. by apply Forall_cons in Hall as [-> _].
Qed.

Lemma only_framework (b m1 m2 : Mod) :
  is_bepinex b = true -> is_bepinex m1 = false -> is_bepinex m2 = false ->
  filter (λ m, is_bepinex m = true) ({[b; m1; m2]} : gset Mod) = {[b]}
  /\ ({[b; m1; m2]} : gset Mod) ∖ {[b]} = {[m1; m2]}.
Proof.
  intros Hb H1 H2.
  assert (b <> m1) by (intros ->; congruence).
  assert (b <> m2) by (intros ->; congruence).
  split; apply set_eq; intros x.
  - rewrite elem_of_filter, !elem_of_union, !elem_of_singleton. split.
    + intros [Hx [[-> | ->] | ->]]; [done | congruence | congruence].
    + intros ->. split; [done | by left; left].
  - rewrite elem_of_difference, !elem_of_union, !elem_of_singleton. split.
    + intros [[[-> | ->] | ->] Hn]; [done | by left | by right].
    + intros [-> | ->]; (split; [| done]); [by left; right | by right].
Qed.

Lemma size_pair (m1 m2 : Mod) : m1 <> m2 -> size ({[m1; m2]} : gset Mod) = 2%nat.
Proof.
  intros Hne. rewrite size_union, !size_singleton; [done |].
  by apply disjoint_singleton_l, not_elem_of_singleton.
Qed.

Lemma list_to_set_three (b m1 m2 : Mod) :
  (list_to_set [b; m1; m2] : gset Mod) = {[b; m1; m2]}.
Proof. simpl. by rewrite union_empty_r_L, !(assoc_L (∪)). Qed.

End FrameworkFirst.

(** C8, as the code has it.  The game directory lacks the framework, the
    mods file names the framework and two other packages, the framework is
    downloaded and installed without an error, and each of the two others is
    downloaded and installed by the pool.  Then the framework's events come
    first, those of the pool after them, and the summary, the last line
    printed, counts the two packages of the pool only: 2/2 downloaded, 2/2
    installed, 0 errors.  The run returns 0. *)
Theorem framework_then_pool_summary `{Env} (args : Args) (fs : FS)
    (lines : list string) (parsed : list Mod) (b m1 m2 : Mod) :
  path_isdir fs (game_dir args) = true ->
  (truthy (args_out_dir args) = true ->
   path_isdir fs (default EmptyString (args_out_dir args)) = true) ->
  readlines fs (mods_file args) = Ok lines ->
  parse_lines lines = Ok parsed ->
  (list_to_set parsed : gset Mod) = {[b; m1; m2]} ->
  is_bepinex b = true -> is_bepinex m1 = false -> is_bepinex m2 = false -> m1 <> m2 ->
  let cls := (enter args fs).1 in
  let first := _download_and_install_mod cls b (game_dir args) (enter args fs).2 in
  let pool := pool_map cls (game_dir args) (elements ({[m1; m2]} : gset Mod)) (fs_of first) in
  path_exists (enter args fs).2 (PosixPath.join (game_dir args) BEPINEX) = false ->
  (exists i, result_of first = Ok (1, i, 0)%nat) ->
  Forall (λ r, r = Ok (1, 1, 0)%nat) pool.1.1 ->
  main args fs
  = (Ok 0%nat, leave args cls pool.1.2,
     events_of first ++ pool.2 ++ [Print "Downloaded 2/2. Installed 2/2. Errors: 0"]).
Proof.
  intros Hgame Hout Hlines Hparsed Hset Hb H1 H2 Hne cls first pool Hmissing [i Hfirst] Hpool.
  destruct (only_framework b m1 m2 Hb H1 H2) as [Hfilter Hrest].
  rewrite (main_run args fs ({[m1; m2]}) (Some b)); [| done | done |].
  2:{ rewrite (_read_mods_one_framework _ _ lines parsed b Hlines Hparsed);
        rewrite Hset; [by rewrite Hrest | done]. }
  fold cls.
  rewrite (main_body_go_on args cls _ (Some b) _ (fs_of first) (events_of first)).
  2:{ by apply (install_framework_first_ok args cls b _ 1%nat i). }
  fold pool.
  pose proof (size_pair m1 m2 Hne) as Hsize.
  assert (length pool.1.1 = 2%nat) as Hlen.
  { unfold pool. rewrite pool_map_length. exact Hsize. }
  rewrite Hsize. destruct pool as [[rs fs2] ev2]. simpl in *.
  rewrite (aggregate_two rs Hlen Hpool). done.
Qed.

(** C9.  With no package for the pool there is nothing to unpack:
    [_download_and_install_mods] raises ValueError and prints no summary, and
    a run whose mods set is empty, once the framework is dealt with, ends
    with that error and never with 0. *)
Theorem empty_pool_raises `{Env} (cls : option string) (dir : string) (fs : FS) :
  let error := ValueError "not enough values to unpack (expected 3, got 0)" in
  _download_and_install_mods cls [] dir fs = (Raise error, fs, [])
  /\ forall args bepinex_mod,
       main_body args cls ∅ bepinex_mod fs
       = let '(r, fs1, ev1) := install_framework_first args cls bepinex_mod fs in
         (match r with
          | Ok true => Raise error
          | Ok false => Ok 1%nat
          | Raise e => Raise e
          end, fs1, ev1).
Proof.
  intros error. split; [done |]. intros args bepinex_mod.
  unfold main_body. rewrite run_bind.
  destruct (install_framework_first args cls bepinex_mod fs) as [[[[]|e] fs1] ev1];
    cbn [negb]; [| by unfold ret; rewrite app_nil_r | done].
  rewrite run_bind, _download_and_install_mods_run, elements_empty. simpl.
  by rewrite app_nil_r.
Qed.

(** ** Lines of the mods file *)

Section Lines.

Lemma rstrip_blank (s : string) :
  Str.all_chars Str.is_space s = true -> Str.rstrip s = EmptyString.
Proof.
  induction s as [|x s IH]; [done |]. simpl.
  intros [Hx Hs]%andb_prop. by rewrite (IH Hs), Hx.
Qed.

End Lines.

(** C10.  A line of the mods file, stripped at its end, has one segment more
    than it has dashes.  With three segments it gives the descriptor of these
    three and an empty output directory; with four, the fourth is stored as
    the output directory, which makes the descriptor differ from the one of
    the first three alone; with fewer than three or more than four segments,
    as on a blank line, the constructor raises TypeError. *)
Theorem parse_line_segments (line : string) :
  let segs := Str.split (Str.rstrip line) SEP in
  length segs = S (Str.count_char "-" (Str.rstrip line))
  /\ ((exists m, parse_line line = Ok m) <-> length segs = 3%nat \/ length segs = 4%nat)
  /\ (forall a b c, segs = [a; b; c] -> parse_line line = Ok (mkMod a b c EmptyString))
  /\ (forall a b c d, segs = [a; b; c; d] ->
        parse_line line = Ok (mkMod a b c d)
        /\ (d <> EmptyString -> mkMod a b c d <> mkMod a b c EmptyString))
  /\ ((length segs < 3)%nat \/ (4 < length segs)%nat -> parse_line line = Raise TypeError)
  /\ (Str.all_chars Str.is_space line = true -> parse_line line = Raise TypeError).
Proof.
  intros segs. unfold parse_line. fold segs.
  split; [apply split_char_length |].
  split.
  { split.
    - intros [m Hm].
      destruct segs as [|a [|b [|c [|d [|e l]]]]]; simpl in *; try done; auto.
    - intros [Hlen | Hlen]; destruct segs as [|a [|b [|c [|d [|e l]]]]]; simpl in *;
        try done; by eexists. }
  split; [by intros a b c -> |].
  split.
  { intros a b c d ->. split; [done |]. by intros Hd [= ->]. }
  split.
  - intros [Hlen | Hlen]; destruct segs as [|a [|b [|c [|d [|e l]]]]]; simpl in *;
      try done; lia.
  - intros Hblank. subst segs. by rewrite (rstrip_blank line Hblank).
Qed.

(** ** The small environment keeps what it holds *)

Section ToyLaws.

Lemma str_in_app (p : string) (l1 l2 : list string) :
  str_in p (l1 ++ l2) = str_in p l1 || str_in p l2.
Proof. apply existsb_app. Qed.

Lemma toy_makedirs_keeps (d : string) (s : Toy.fs) (p : string) :
  Toy.exists_ s p = true -> Toy.exists_ (Toy.makedirs d s).2 p = true.
Proof.
  unfold Toy.makedirs. destruct (bool_decide _); [done |].
  unfold Toy.exists_, Toy.mkdirs, Toy.add_dirs. simpl.
  rewrite str_in_app. intros [Hd | Hf]%orb_prop.
  - by rewrite Hd, orb_true_r.
  - by rewrite Hf, orb_true_r.
Qed.

Lemma toy_copy_keeps (src dst : string) (s : Toy.fs) (p : string) :
  Toy.exists_ s p = true -> Toy.exists_ (Toy.copy src dst s).2 p = true.
Proof.
  unfold Toy.copy. destruct (Toy.lookup src (Toy.files s)); [| done].
  unfold Toy.exists_. simpl. intros [Hd | Hf]%orb_prop.
  - by rewrite Hd.
  - apply orb_true_iff. right. destruct (String.eqb p dst); [| done].
    by apply bool_decide_eq_true.
Qed.

Lemma toy_copy_creates (src dst : string) (s : Toy.fs) :
  (Toy.copy src dst s).1 = Ok () -> Toy.exists_ (Toy.copy src dst s).2 dst = true.
Proof.
  unfold Toy.copy. destruct (Toy.lookup src (Toy.files s)); [| done].
  intros _. unfold Toy.exists_. simpl. rewrite String.eqb_refl.
  apply orb_true_iff. right. by apply bool_decide_eq_true.
Qed.

End ToyLaws.

(** ** The theorems at work *)

Lemma install_skips_ignored_witness :
  In (Copy "/cache/alice-Foo-1.0.0/plugins/Foo.dll" "/game/BepInEx/plugins/Foo.dll")
     (events_of (@_install (Toy.env Scenario.remote) (Some "/cache") Scenario.foo
                   "/game" Scenario.disk_foo_cached))
  /\ ~ In (Copy "/cache/alice-Foo-1.0.0/manifest.json" "/game/BepInEx/plugins/manifest.json")
          (events_of (@_install (Toy.env Scenario.remote) (Some "/cache") Scenario.foo
                        "/game" Scenario.disk_foo_cached)).
Proof.
  split; [vm_compute; auto |].
  exact (@install_skips_ignored (Toy.env Scenario.remote) (Some "/cache") Scenario.foo
           "/game" Scenario.disk_foo_cached "manifest.json"
           "/game/BepInEx/plugins/manifest.json" eq_refl).
Defined.

(** Of the three files of the package only the library is copied. *)
Example install_foo_trace :
  @_install (Toy.env Scenario.remote) (Some "/cache") Scenario.foo "/game"
    Scenario.disk_foo_cached
  = (Ok 1%nat,
     Toy.mkFs (("/game/BepInEx/plugins/Foo.dll", Toy.Bytes "f")
                 :: Toy.files Scenario.disk_foo_cached)
              ("/game/BepInEx/plugins" :: Toy.dirs Scenario.disk_foo_cached),
     [MakeDirs "/game/BepInEx/plugins";
      Copy "/cache/alice-Foo-1.0.0/plugins/Foo.dll" "/game/BepInEx/plugins/Foo.dll";
      Print "Installed Foo 1.0.0"]).
Proof. vm_compute. reflexivity. Qed.

(** Installed once, skipped the second time. *)
Example install_foo_twice :
  (@_install (Toy.env Scenario.remote) (Some "/cache") Scenario.foo "/game";;
   @_install (Toy.env Scenario.remote) (Some "/cache") Scenario.foo "/game")
    Scenario.disk_foo_cached
  = (Ok 0%nat,
     Toy.mkFs (("/game/BepInEx/plugins/Foo.dll", Toy.Bytes "f")
                 :: Toy.files Scenario.disk_foo_cached)
              ("/game/BepInEx/plugins" :: Toy.dirs Scenario.disk_foo_cached),
     [MakeDirs "/game/BepInEx/plugins";
      Copy "/cache/alice-Foo-1.0.0/plugins/Foo.dll" "/game/BepInEx/plugins/Foo.dll";
      Print "Installed Foo 1.0.0";
      Print "Skipping Foo 1.0.0 (already installed)"]).
Proof. vm_compute. reflexivity. Qed.

Lemma download_present_noop_witness :
  @path_exists (Toy.env Scenario.remote) Scenario.disk_with_foo "/cache/alice-Foo-1.0.0" = true
  /\ @_download (Toy.env Scenario.remote) (Some "/cache") Scenario.foo Scenario.disk_with_foo
     = (Ok 0%nat, Scenario.disk_with_foo, []).
Proof.
  split; [reflexivity |].
  exact (proj1 (@download_present_noop (Toy.env Scenario.remote) (Some "/cache")
                  Scenario.foo Scenario.disk_with_foo eq_refl)).
Defined.

Lemma install_never_overwrites_witness :
  @_install (Toy.env Scenario.remote) (Some "/cache") Scenario.foo "/game"
    Scenario.disk_with_foo
  = (Ok 0%nat, Scenario.disk_with_foo, [Print "Skipping Foo 1.0.0 (already installed)"]).
Proof.
  refine (proj1 (proj2 (proj2 (proj2
    (@install_never_overwrites (Toy.env Scenario.remote) (Some "/cache") Scenario.foo
       "/game" Scenario.disk_with_foo
       toy_makedirs_keeps toy_copy_keeps toy_copy_creates)))) eq_refl _).
  intros file Hfile. vm_compute in Hfile.
  destruct Hfile as [<- | []]. reflexivity.
Defined.

(** One of the two packages of the pool is answered 404: its task returns
    (0, 0, 1), the other package is installed, the summary counts one error,
    and the run returns 0. *)
Lemma download_failure_isolated_witness :
  (exists msg,
     @_download_and_install_mod (Toy.env Scenario.remote_without_bar) (Some "/cache")
       Scenario.bar "/game" Scenario.disk_foo_cached
     = (Ok (0, 0, 1)%nat, Scenario.disk_foo_cached,
        [HttpGet "https://thunderstore.io/package/download/bob/Bar/2.0.0";
         Print ("Failed to download Bar 2.0.0: " +:+ msg)]))
  /\ result_of (@main (Toy.env Scenario.remote_without_bar) Scenario.args Scenario.disk)
     = Ok 0%nat
  /\ List.last (events_of (@main (Toy.env Scenario.remote_without_bar) Scenario.args
                             Scenario.disk)) (Print EmptyString)
     = Print "Downloaded 1/2. Installed 1/2. Errors: 1".
Proof.
  split.
  { destruct (@download_failure_isolated (Toy.env Scenario.remote_without_bar) (Some "/cache")
                Scenario.bar "/game" Scenario.disk_foo_cached
                (mkResponse 404%Z "Not Found" (url Scenario.bar) [])
                eq_refl eq_refl ltac:(simpl; lia))
      as (msg & _ & Htask & _).
    exists msg. exact Htask. }
  set (E := Toy.env Scenario.remote_without_bar).
  set (cls := Some Toy.tmp).
  set (first := @install_framework_first E Scenario.args cls (Some Scenario.pack)
                  (@enter E Scenario.args Scenario.disk).2).
  set (fs := (@pool_map E cls "/game" [Scenario.foo] (fs_of first)).1.2).
  destruct (@download_failure_isolated E cls Scenario.bar "/game" fs
              (mkResponse 404%Z "Not Found" (url Scenario.bar) [])
              ltac:(vm_compute; reflexivity) eq_refl ltac:(simpl; lia))
    as (msg & _ & _ & _ & Hrun).
  assert (size ({[Scenario.foo; Scenario.bar]} : gset Mod) = 2%nat) as Hsize
    by (apply size_pair; discriminate).
  destruct (Hrun Scenario.args Scenario.disk ({[Scenario.foo; Scenario.bar]})
              (Some Scenario.pack) (fs_of first) (events_of first)
              [Scenario.foo] [] [(1, 1, 0)%nat] []) as [Hexit Hlast];
    [.. | split; [exact Hexit | by rewrite Hlast, Hsize]].
  - reflexivity.
  - reflexivity.
  - discriminate.
  - destruct (@only_framework Scenario.pack Scenario.foo Scenario.bar eq_refl eq_refl eq_refl)
      as [Hfilter Hrest].
    pose proof (list_to_set_three Scenario.pack Scenario.foo Scenario.bar) as Hset.
    rewrite (@_read_mods_one_framework E (mods_file Scenario.args) Scenario.disk
               Scenario.mods_txt
               [Scenario.pack; Scenario.foo; Scenario.bar] Scenario.pack eq_refl eq_refl);
      rewrite Hset; [by rewrite Hrest | done].
  - reflexivity.
  - vm_compute. reflexivity.
  - vm_compute. reflexivity.
  - reflexivity.
  - vm_compute. reflexivity.
  - reflexivity.
Defined.

Lemma multiple_frameworks_fatal_witness :
  exists error,
    @main (Toy.env Scenario.remote) Scenario.args Scenario.disk_two_frameworks
    = (Raise (ValueError error), Scenario.disk_two_frameworks, []).
Proof.
  eexists.
  refine (proj2 (@multiple_frameworks_fatal (Toy.env Scenario.remote) "/mods.txt"
                   Scenario.disk_two_frameworks Scenario.two_frameworks
                   [Scenario.pack; mkMod "bbepis" "BepInExPack" "5.4.19" EmptyString;
                    Scenario.foo]
                   Scenario.pack (mkMod "bbepis" "BepInExPack" "5.4.19" EmptyString)
                   eq_refl eq_refl _ _ _ eq_refl eq_refl)
                Scenario.args eq_refl eq_refl _).
  - simpl. auto.
  - simpl. auto.
  - discriminate.
  - discriminate.
Defined.

Lemma framework_then_pool_summary_witness :
  result_of (@main (Toy.env Scenario.remote) Scenario.args Scenario.disk) = Ok 0%nat
  /\ List.last (events_of (@main (Toy.env Scenario.remote) Scenario.args Scenario.disk))
       (Print EmptyString)
     = Print "Downloaded 2/2. Installed 2/2. Errors: 0".
Proof.
  rewrite (@framework_then_pool_summary (Toy.env Scenario.remote) Scenario.args
             Scenario.disk Scenario.mods_txt
             [Scenario.pack; Scenario.foo; Scenario.bar]
             Scenario.pack Scenario.foo Scenario.bar).
  - split; [reflexivity |]. rewrite !app_assoc. apply last_last.
  - reflexivity.
  - discriminate.
  - reflexivity.
  - reflexivity.
  - apply list_to_set_three.
  - reflexivity.
  - reflexivity.
  - reflexivity.
  - discriminate.
  - reflexivity.
  - exists 1%nat. vm_compute. reflexivity.
  - vm_compute. repeat constructor.
Defined.

(** The run of the scenario, event by event: three downloads, the framework
    installed first, and a summary that counts two packages, not three. *)
Lemma summary_counts_pool_only_counterexample :
  events_of (@main (Toy.env Scenario.remote) Scenario.args Scenario.disk)
  = [HttpGet "https://thunderstore.io/package/download/bbepis/BepInExPack/5.4.21";
     ExtractAll "/tmp/tmpdir/bbepis-BepInExPack-5.4.21";
     MakeDirs "/game/BepInEx/core";
     Copy "/tmp/tmpdir/bbepis-BepInExPack-5.4.21/BepInExPack/BepInEx/core/BepInEx.dll"
          "/game/BepInEx/core/BepInEx.dll";
     MakeDirs "/game";
     Copy "/tmp/tmpdir/bbepis-BepInExPack-5.4.21/BepInExPack/winhttp.dll" "/game/winhttp.dll";
     Print "Installed BepInExPack 5.4.21";
     HttpGet "https://thunderstore.io/package/download/alice/Foo/1.0.0";
     ExtractAll "/tmp/tmpdir/alice-Foo-1.0.0";
     MakeDirs "/game/BepInEx/plugins";
     Copy "/tmp/tmpdir/alice-Foo-1.0.0/plugins/Foo.dll" "/game/BepInEx/plugins/Foo.dll";
     Print "Installed Foo 1.0.0";
     HttpGet "https://thunderstore.io/package/download/bob/Bar/2.0.0";
     ExtractAll "/tmp/tmpdir/bob-Bar-2.0.0";
     MakeDirs "/game/BepInEx/plugins";
     Copy "/tmp/tmpdir/bob-Bar-2.0.0/Bar.dll" "/game/BepInEx/plugins/Bar.dll";
     Print "Installed Bar 2.0.0";
     Print "Downloaded 2/2. Installed 2/2. Errors: 0"]
  /\ ~ In (Print "Downloaded 3/3. Installed 3/3. Errors: 0")
          (events_of (@main (Toy.env Scenario.remote) Scenario.args Scenario.disk)).
Proof.
  assert (events_of (@main (Toy.env Scenario.remote) Scenario.args Scenario.disk)
          = [HttpGet "https://thunderstore.io/package/download/bbepis/BepInExPack/5.4.21";
     ExtractAll "/tmp/tmpdir/bbepis-BepInExPack-5.4.21";
     MakeDirs "/game/BepInEx/core";
     Copy "/tmp/tmpdir/bbepis-BepInExPack-5.4.21/BepInExPack/BepInEx/core/BepInEx.dll"
          "/game/BepInEx/core/BepInEx.dll";
     MakeDirs "/game";
     Copy "/tmp/tmpdir/bbepis-BepInExPack-5.4.21/BepInExPack/winhttp.dll" "/game/winhttp.dll";
     Print "Installed BepInExPack 5.4.21";
     HttpGet "https://thunderstore.io/package/download/alice/Foo/1.0.0";
     ExtractAll "/tmp/tmpdir/alice-Foo-1.0.0";
     MakeDirs "/game/BepInEx/plugins";
     Copy "/tmp/tmpdir/alice-Foo-1.0.0/plugins/Foo.dll" "/game/BepInEx/plugins/Foo.dll";
     Print "Installed Foo 1.0.0";
     HttpGet "https://thunderstore.io/package/download/bob/Bar/2.0.0";
     ExtractAll "/tmp/tmpdir/bob-Bar-2.0.0";
     MakeDirs "/game/BepInEx/plugins";
     Copy "/tmp/tmpdir/bob-Bar-2.0.0/Bar.dll" "/game/BepInEx/plugins/Bar.dll";
     Print "Installed Bar 2.0.0";
     Print "Downloaded 2/2. Installed 2/2. Errors: 0"]) as Htrace
    by (vm_compute; reflexivity).
  split; [exact Htrace |]. rewrite Htrace. simpl.
  intros Hin. repeat (destruct Hin as [Hin | Hin]; [discriminate Hin |]). exact Hin.
Qed.

Lemma parse_line_segments_witness :
  parse_line "alice-Foo-1.0.0-extra" = Ok (mkMod "alice" "Foo" "1.0.0" "extra")
  /\ mkMod "alice" "Foo" "1.0.0" "extra" <> mkMod "alice" "Foo" "1.0.0" EmptyString.
Proof.
  destruct (proj1 (proj2 (proj2 (proj2 (parse_line_segments "alice-Foo-1.0.0-extra"))))
              "alice" "Foo" "1.0.0" "extra" eq_refl) as [Hparse Hne].
  split; [exact Hparse |]. apply Hne. discriminate.
Defined.

Example parse_blank_line : parse_line Scenario.newline = Raise TypeError.
Proof. reflexivity. Qed.

Example parse_two_segments : parse_line "alice-Foo" = Raise TypeError.
Proof. reflexivity. Qed.

Example parse_five_segments : parse_line "a-b-c-d-e" = Raise TypeError.
Proof. reflexivity. Qed.

(** A mods file that names only the framework: once the framework is
    installed the run ends with the unpacking error. *)
Example only_framework_entry :
  result_of (@main (Toy.env Scenario.remote) Scenario.args
               (Toy.mkFs [("/mods.txt", Toy.Text ["bbepis-BepInExPack-5.4.21"])] ["/game"]))
  = Raise (ValueError "not enough values to unpack (expected 3, got 0)").
Proof. vm_compute. reflexivity. Qed.

(* ================================================================= *)
(** * Further properties *)

(** ** What [_read_mods] returns *)

Section ReadModsResult.
Context `{Env}.

Lemma elements_singleton_inv (X : gset Mod) (b : Mod) :
  elements X = [b] -> forall x, x ∈ X <-> x = b.
Proof.
  intros Hel x. rewrite <- elem_of_elements, Hel. apply list_elem_of_singleton.
Qed.

Lemma elements_nil_inv (X : gset Mod) :
  elements X = [] -> forall x, x ∉ X.
Proof. intros Hel x. rewrite <- elem_of_elements, Hel. apply not_elem_of_nil. Qed.

(** The value of [_read_mods], written out. *)
Lemma _read_mods_result (file : string) (fs : FS) :
  result_of (_read_mods file fs)
  = match readlines fs file with
    | Raise e => Raise e
    | Ok lines =>
        match parse_lines lines with
        | Raise e => Raise e
        | Ok parsed =>
            let mods : gset Mod := list_to_set parsed in
            let bepinex_mods : gset Mod := filter (λ m, is_bepinex m = true) mods in
            if (1 <? size bepinex_mods)%nat then
              Raise (ValueError ("Multiple " +:+ BEPINEX_PACKAGE_NAME +:+ " entries in '"
                                   +:+ file +:+ "' [" +:+ repr_set bepinex_mods +:+ "]"))
            else
              match elements bepinex_mods with
              | b :: _ => Ok (mods ∖ {[b]}, Some b)
              | [] => Ok (mods, None)
              end
        end
    end.
Proof.
  unfold _read_mods, result_of, bind, get_fs, lift, raise, ret.
  destruct (readlines fs file) as [lines|e]; [| done].
  destruct (parse_lines lines) as [parsed|e]; [| done].
  cbv zeta. destruct (1 <? size _)%nat; [done |].
  by destruct (elements _).
Qed.

End ReadModsResult.

(** X1.  When [_read_mods] returns, the mods file was read and parsed, the
    set it returns holds exactly the parsed descriptors that are not named
    like the framework, and its second component is the parsed descriptor
    named like the framework, when there is one. *)
Theorem read_mods_partition `{Env} (file : string) (fs : FS)
    (mods : gset Mod) (bepinex_mod : option Mod) :
  result_of (_read_mods file fs) = Ok (mods, bepinex_mod) ->
  exists lines parsed,
    readlines fs file = Ok lines /\ parse_lines lines = Ok parsed
    /\ (forall m, m ∈ mods <-> In m parsed /\ is_bepinex m = false)
    /\ (forall b, bepinex_mod = Some b <-> In b parsed /\ is_bepinex b = true).
Proof.
  rewrite _read_mods_result.
  destruct (readlines fs file) as [lines|e] eqn:Hlines; [| done].
  destruct (parse_lines lines) as [parsed|e] eqn:Hparsed; [| done].
  cbv zeta.
  set (S := list_to_set parsed : gset Mod).
  set (F := filter (λ m, is_bepinex m = true) S).
  assert (forall m, m ∈ S <-> In m parsed) as HS.
  { intros m. unfold S. by rewrite elem_of_list_to_set, list_elem_of_In. }
  assert (forall m, m ∈ F <-> In m parsed /\ is_bepinex m = true) as HF.
  { intros m. unfold F. rewrite elem_of_filter, HS. tauto. }
  destruct (Nat.ltb_spec 1 (size F)) as [|Hsize]; [done |].
  intros Hret. exists lines, parsed. split; [done |]. split; [done |].
  destruct (elements F) as [|b l] eqn:Hel; injection Hret as <- <-.
  - pose proof (elements_nil_inv F Hel) as Hnone. split.
    + intros m. rewrite HS. split.
      * intros Hm. split; [done |]. destruct (is_bepinex m) eqn:Hb; [| done].
        destruct (Hnone m). by apply HF.
      * tauto.
    + intros b. split; [done |]. intros Hb. destruct (Hnone b). by apply HF.
  - assert (l = []) as ->.
    { assert (length (elements F) <= 1)%nat as Hlen by exact Hsize.
      rewrite Hel in Hlen. simpl in Hlen. destruct l; [done | simpl in Hlen; lia]. }
    pose proof (elements_singleton_inv F b Hel) as Hone. split.
    + intros m. rewrite elem_of_difference, elem_of_singleton, HS. split.
      * intros [Hm Hne]. split; [done |]. destruct (is_bepinex m) eqn:Hb; [| done].
        destruct Hne. apply Hone, HF. done.
      * intros [Hm Hb]. split; [done |]. intros ->.
        assert (b ∈ F) as [_ Hb']%HF by by apply Hone. congruence.
    + intros b'. split.
      * intros [= <-]. apply HF, Hone. done.
      * intros Hb'. f_equal. symmetry. by apply Hone, HF.
Qed.

Lemma read_mods_partition_witness :
  exists lines parsed,
    @readlines (Toy.env Scenario.remote) Scenario.disk "/mods.txt" = Ok lines
    /\ parse_lines lines = Ok parsed
    /\ (forall m, m ∈ ({[Scenario.foo; Scenario.bar]} : gset Mod)
                  <-> In m parsed /\ is_bepinex m = false)
    /\ (forall b, Some Scenario.pack = Some b <-> In b parsed /\ is_bepinex b = true).
Proof.
  apply (@read_mods_partition (Toy.env Scenario.remote) "/mods.txt" Scenario.disk).
  destruct (@only_framework Scenario.pack Scenario.foo Scenario.bar eq_refl eq_refl eq_refl)
    as [Hfilter Hrest].
  pose proof (list_to_set_three Scenario.pack Scenario.foo Scenario.bar) as Hset.
  rewrite (@_read_mods_one_framework (Toy.env Scenario.remote) "/mods.txt" Scenario.disk
             Scenario.mods_txt [Scenario.pack; Scenario.foo; Scenario.bar] Scenario.pack
             eq_refl eq_refl);
    rewrite Hset; [by rewrite Hrest | done].
Defined.

(** ** Descriptors and their lines *)

Section DescriptorLines.

Lemma rstrip_cons (c : ascii) (s : string) :
  Str.rstrip (String c s)
  = match Str.rstrip s with
    | EmptyString => if Str.is_space c then EmptyString else String c EmptyString
    | r => String c r
    end.
Proof. done. Qed.

(** Stripping a concatenation: what is left of the second part decides. *)
Lemma rstrip_app (a b : string) :
  Str.rstrip (a +:+ b)
  = match Str.rstrip b with
    | EmptyString => Str.rstrip a
    | r => a +:+ r
    end.
Proof.
  induction a as [|c a IH]; [simpl; by destruct (Str.rstrip b) |].
  change (String c a +:+ b) with (String c (a +:+ b)).
  rewrite !rstrip_cons, IH.
  destruct (Str.rstrip b) eqn:Hb; [done |].
  by destruct a.
Qed.

Lemma rstrip_dash (a v : string) :
  Str.rstrip v = v -> Str.rstrip (a +:+ "-" +:+ v) = a +:+ "-" +:+ v.
Proof.
  intros Hv. rewrite rstrip_app.
  change ("-" +:+ v) with (String "-" v). rewrite rstrip_cons, Hv.
  by destruct v.
Qed.

Lemma split_from_plain (c : ascii) (d : string) :
  Str.contains_char c d = false ->
  Str.split_from (String c EmptyString) 0 d = (d, []).
Proof.
  induction d as [|x d IH]; [done |]. simpl Str.contains_char.
  rewrite split_from_char, (Ascii.eqb_sym c x).
  destruct (Ascii.eqb x c); [done |]. intros Hd. by rewrite (IH Hd).
Qed.

Lemma split_from_segment (c : ascii) (d r : string) :
  Str.contains_char c d = false ->
  Str.split_from (String c EmptyString) 0 (d +:+ String c r)
  = (d, (Str.split_from (String c EmptyString) 0 r).1
          :: (Str.split_from (String c EmptyString) 0 r).2).
Proof.
  induction d as [|x d IH].
  - intros _. change (EmptyString +:+ String c r) with (String c r).
    by rewrite split_from_char, Ascii.eqb_refl.
  - simpl Str.contains_char. change (String x d +:+ String c r) with (String x (d +:+ String c r)).
    rewrite split_from_char, (Ascii.eqb_sym c x).
    destruct (Ascii.eqb x c); [done |]. intros Hd. by rewrite (IH Hd).
Qed.

End DescriptorLines.

(** X2.  The composite identifier of a descriptor parses back to the
    descriptor: when publisher, name and version hold no dash and the version
    does not end in white space, the line "publisher-name-version" gives the
    descriptor of these three, with an empty fourth field. *)
Theorem parse_package_name (publisher nm ver out : string) :
  Str.contains_char "-" publisher = false ->
  Str.contains_char "-" nm = false ->
  Str.contains_char "-" ver = false ->
  Str.rstrip ver = ver ->
  parse_line (package_name (mkMod publisher nm ver out))
  = Ok (mkMod publisher nm ver EmptyString).
Proof.
  intros Hp Hn Hv Hstrip. unfold parse_line, package_name, SEP. cbn [by_ name version].
  assert (publisher +:+ "-" +:+ nm +:+ "-" +:+ ver
          = (publisher +:+ "-" +:+ nm) +:+ "-" +:+ ver) as Hassoc
    by (by rewrite !append_assoc).
  rewrite Hassoc, rstrip_dash, <- Hassoc by done.
  unfold Str.split.
  change (publisher +:+ "-" +:+ nm +:+ "-" +:+ ver)
    with (publisher +:+ String "-" (nm +:+ String "-" ver)).
  by rewrite !split_from_segment, split_from_plain.
Qed.

Lemma parse_package_name_witness :
  parse_line (package_name Scenario.foo) = Ok Scenario.foo.
Proof.
  exact (parse_package_name "alice" "Foo" "1.0.0" EmptyString eq_refl eq_refl eq_refl eq_refl).
Defined.

(** X3.  White space at the end of a line, the line ending included, does
    not change the descriptor the line gives, or the error it raises. *)
Theorem parse_line_trailing_space (line ws : string) :
  Str.all_chars Str.is_space ws = true ->
  parse_line (line +:+ ws) = parse_line line.
Proof.
  intros Hws. unfold parse_line.
  by rewrite rstrip_app, (rstrip_blank ws Hws).
Qed.

Lemma parse_line_trailing_space_witness :
  parse_line ("alice-Foo-1.0.0" +:+ (" " +:+ Scenario.newline)) = Ok Scenario.foo.
Proof.
  rewrite (parse_line_trailing_space "alice-Foo-1.0.0" (" " +:+ Scenario.newline) eq_refl).
  reflexivity.
Defined.

(** ** More on the path resolver *)

Section ResolverEdges.

Lemma map_chars_idem (f : ascii -> ascii) (s : string) :
  (forall c, f (f c) = f c) -> Str.map_chars f (Str.map_chars f s) = Str.map_chars f s.
Proof. intros Hf. induction s as [|c s IH]; simpl; [done | by rewrite Hf, IH]. Qed.

Lemma normalize_idem (file : string) :
  Str.replace (Str.replace file backslash PosixPath.sep) backslash PosixPath.sep
  = Str.replace file backslash PosixPath.sep.
Proof.
  unfold backslash, PosixPath.sep. rewrite !replace_char. apply map_chars_idem.
  intros c. destruct (Ascii.eqb c (ascii_of_nat 92)) eqn:Hc; [done | by rewrite Hc].
Qed.

Lemma normalize_sep (c : ascii) (rest : string) :
  is_sep_char c = true ->
  Str.replace (String c rest) backslash PosixPath.sep
  = String "/" (Str.replace rest backslash PosixPath.sep).
Proof.
  unfold backslash, PosixPath.sep, is_sep_char. rewrite !replace_char. simpl.
  destruct (Ascii.eqb_spec c (ascii_of_nat 92)) as [|Hne]; [done |].
  rewrite orb_false_r. by intros ->%Ascii.eqb_eq.
Qed.

(** A slash is never the start of a directory to strip. *)
Lemma replace_from_slash (new s : string) :
  Str.replace_from (BEPINEX +:+ PosixPath.sep) new 0 (String "/" s)
  = String "/" (Str.replace_from (BEPINEX +:+ PosixPath.sep) new 0 s).
Proof. by rewrite replace_from_cons. Qed.

End ResolverEdges.

(** X4.  The resolver for the other packages reads a path only through its
    form with slashes: a path and the same path with every backslash turned
    into a slash resolve alike. *)
Theorem resolve_normalized (game_dir file : string) :
  _get_file_install_path game_dir file false
  = _get_file_install_path game_dir (Str.replace file backslash PosixPath.sep) false.
Proof. unfold _get_file_install_path. by rewrite normalize_idem. Qed.

(** X5.  A path that begins with a slash or a backslash leaves the game
    directory: the resolver returns an absolute path, the same whatever the
    game directory is. *)
Theorem resolve_leading_separator (game_dir other : string) (c : ascii) (rest : string) :
  is_sep_char c = true ->
  Str.startswith (_get_file_install_path game_dir (String c rest) false) "/" = true
  /\ _get_file_install_path other (String c rest) false
     = _get_file_install_path game_dir (String c rest) false.
Proof.
  intros Hc.
  assert (forall g, _get_file_install_path g (String c rest) false
                    = String "/" (Str.replace_from (BEPINEX +:+ PosixPath.sep) EmptyString 0
                                    (Str.replace rest backslash PosixPath.sep))) as Hall.
  { intros g. unfold _get_file_install_path.
    rewrite (normalize_sep c rest Hc).
    change (Str.replace (String "/" ?s) (BEPINEX +:+ PosixPath.sep) EmptyString)
      with (Str.replace_from (BEPINEX +:+ PosixPath.sep) EmptyString 0 (String "/" s)).
    rewrite replace_from_slash. reflexivity. }
  rewrite !Hall. done.
Qed.

Lemma resolve_leading_separator_witness :
  Str.startswith
    (_get_file_install_path "/game" (String (ascii_of_nat 92) "evil\x.dll") false) "/" = true
  /\ _get_file_install_path "/elsewhere" (String (ascii_of_nat 92) "evil\x.dll") false
     = _get_file_install_path "/game" (String (ascii_of_nat 92) "evil\x.dll") false.
Proof.
  exact (resolve_leading_separator "/game" "/elsewhere" (ascii_of_nat 92) "evil\x.dll" eq_refl).
Defined.

Example resolve_leading_backslash :
  _get_file_install_path "/game" (String (ascii_of_nat 92) "evil\x.dll") false = "/evil/x.dll".
Proof. reflexivity. Qed.

(** X6.  A path of another package in which no directory name is empty and
    none ends in "BepInEx" without being that name lands in one of the three
    directories of the framework: below <game_dir>/BepInEx/plugins,
    <game_dir>/BepInEx/patchers or <game_dir>/BepInEx/config. *)
Theorem resolve_lands_in_known_directory (game_dir file : string) :
  forallb mod_name_ok (split_path (Str.replace file backslash PosixPath.sep)).1 = true ->
  exists sub rest,
    recognized sub = true
    /\ _get_file_install_path game_dir file false
       = PosixPath.join game_dir BEPINEX +:+ "/" +:+ sub +:+ "/" +:+ rest.
Proof.
  intros Hnames.
  destruct (split_path_render (Str.replace file backslash PosixPath.sep))
    as (Hrender & Hdirs & Hbase).
  rewrite (resolve_mod_segments game_dir file _ _ (eq_sym Hrender));
    [| by apply forallb_and | done].
  unfold place.
  destruct (strip_every BEPINEX _) as [|d dirs].
  - by exists BEPINEX_PLUGINS_DIR, (split_path (Str.replace file backslash PosixPath.sep)).2.
  - destruct (recognized d) eqn:Hd.
    + exists d, (render dirs (split_path (Str.replace file backslash PosixPath.sep)).2).
      split; [done |]. by rewrite render_cons.
    + by exists BEPINEX_PLUGINS_DIR,
        (render (d :: dirs) (split_path (Str.replace file backslash PosixPath.sep)).2).
Qed.

Lemma resolve_lands_in_known_directory_witness :
  exists sub rest,
    recognized sub = true
    /\ _get_file_install_path "/game" "BepInEx\config\Foo.cfg" false
       = PosixPath.join "/game" BEPINEX +:+ "/" +:+ sub +:+ "/" +:+ rest.
Proof.
  exact (resolve_lands_in_known_directory "/game" "BepInEx\config\Foo.cfg" eq_refl).
Defined.

(** ** More on install *)

Section InstallTrace.
Context `{Env}.
Variable cls : option string.
Variables (m : Mod) (game_dir : string).

(** A loop that ends well leaves the steps of the files it copied, which
    are among the files given, in their order. *)
Lemma install_files_steps (files : list string) (installed b : bool) (fs : FS) :
  result_of (install_files cls m game_dir files installed fs) = Ok b ->
  exists copied,
    sublist copied files
    /\ events_of (install_files cls m game_dir files installed fs)
       = copy_steps cls m game_dir copied
    /\ b = installed || negb (bool_decide (copied = [])).
Proof.
  revert installed fs. induction files as [|file rest IH]; intros installed fs.
  - simpl. unfold result_of, ret. simpl. intros [= <-]. exists [].
    split; [constructor |]. split; [done |]. by rewrite orb_false_r.
  - rewrite install_files_cons.
    destruct (path_exists fs _).
    { intros (copied & Hsub & Hev & Hb)%IH. exists copied.
      split; [by constructor |]. done. }
    destruct (makedirs _ fs) as [[[]|e] fs1]; [| done].
    destruct (copy _ _ fs1) as [[[]|e] fs2]; [| done].
    specialize (IH true fs2).
    destruct (install_files cls m game_dir rest true fs2) as [[r fs3] ev].
    unfold result_of, events_of in *. simpl in *.
    intros Hr. destruct (IH Hr) as (copied & Hsub & Hev & Hb).
    exists (file :: copied). split; [by constructor |].
    split; [by rewrite Hev |]. by rewrite orb_true_r.
Qed.

End InstallTrace.

(** X7.  Every copy that install makes takes a file that the listing of the
    extraction directory gives and that is no directory, from its place in
    the extraction directory to the path the resolver gives it. *)
Theorem install_copies_resolved `{Env} (cls : option string) (m : Mod)
    (game_dir : string) (fs : FS) (src dst : string) :
  In (Copy src dst) (events_of (_install cls m game_dir fs)) ->
  exists file,
    In file (glob_recursive fs (download_path cls m))
    /\ path_isdir fs (PosixPath.join (download_path cls m) file) = false
    /\ src = PosixPath.join (download_path cls m) file
    /\ dst = _get_file_install_path game_dir file (is_bepinex m).
Proof.
  intros Hin.
  apply _install_copies, install_files_copies in Hin as (file & Hfile & Hsrc & Hdst).
  exists file. unfold downloaded_files in Hfile. apply filter_In in Hfile as [Hglob Hfile].
  apply andb_prop in Hfile as [_ Hdir].
  split; [done |]. split; [by destruct (path_isdir fs _) |]. done.
Qed.

Lemma install_copies_resolved_witness :
  exists file,
    In file (@glob_recursive (Toy.env Scenario.remote) Scenario.disk_foo_cached
               "/cache/alice-Foo-1.0.0")
    /\ @path_isdir (Toy.env Scenario.remote) Scenario.disk_foo_cached
         (PosixPath.join "/cache/alice-Foo-1.0.0" file) = false
    /\ "/cache/alice-Foo-1.0.0/plugins/Foo.dll" = PosixPath.join "/cache/alice-Foo-1.0.0" file
    /\ "/game/BepInEx/plugins/Foo.dll" = _get_file_install_path "/game" file false.
Proof.
  apply (@install_copies_resolved (Toy.env Scenario.remote) (Some "/cache") Scenario.foo
           "/game" Scenario.disk_foo_cached).
  vm_compute. auto.
Defined.

(** X8.  The trace of an install that ends well: for some of the files of
    the extraction directory, in the order of the listing, the directory of
    the target is made and the file copied, and one line is printed at the
    end; nothing else happens.  It returns 1 when that list of files is not
    empty and 0 when it is. *)
Theorem install_trace `{Env} (cls : option string) (m : Mod)
    (game_dir : string) (fs : FS) (n : nat) :
  result_of (_install cls m game_dir fs) = Ok n ->
  exists copied line,
    sublist copied (downloaded_files cls m fs)
    /\ events_of (_install cls m game_dir fs)
       = copy_steps cls m game_dir copied ++ [Print line]
    /\ n = if bool_decide (copied = []) then 0%nat else 1%nat.
Proof.
  rewrite _install_run.
  destruct (eligible cls m fs) as [[]|e]; [| | done].
  - pose proof (install_files_steps cls m game_dir (downloaded_files cls m fs) false) as Hsteps.
    destruct (install_files _ _ _ _ _ _) as [[[b|e] fs'] ev] eqn:Hloop; [| done].
    destruct (Hsteps b fs) as (copied & Hsub & Hev & Hb); [by rewrite Hloop |].
    rewrite Hloop in Hev. unfold events_of in Hev. simpl in Hev. subst ev.
    unfold result_of, events_of. simpl. intros [= <-].
    exists copied. eexists. split; [done |]. split; [done |].
    simpl in Hb. rewrite Hb. by destruct (bool_decide (copied = [])).
  - unfold result_of, events_of. simpl. intros [= <-].
    exists []. eexists. split; [apply sublist_nil_l |]. done.
Qed.

Lemma install_trace_witness :
  exists copied line,
    sublist copied (@downloaded_files (Toy.env Scenario.remote) (Some "/cache") Scenario.foo
                      Scenario.disk_foo_cached)
    /\ events_of (@_install (Toy.env Scenario.remote) (Some "/cache") Scenario.foo "/game"
                    Scenario.disk_foo_cached)
       = @copy_steps (Toy.env Scenario.remote) (Some "/cache") Scenario.foo "/game" copied
           ++ [Print line]
    /\ 1%nat = if bool_decide (copied = []) then 0%nat else 1%nat.
Proof.
  apply (@install_trace (Toy.env Scenario.remote) (Some "/cache") Scenario.foo "/game"
           Scenario.disk_foo_cached 1%nat).
  vm_compute. reflexivity.
Defined.

(** X9.  With a file system that keeps what it holds and where a copy that
    ends well leaves its target behind: after an install that ends well of
    a package that is not turned down, every file of the extraction
    directory that the loop ran over is at its place in the game directory,
    and every path that was there before is still there. *)
Theorem install_leaves_all_in_place `{Env} (cls : option string) (m : Mod)
    (game_dir : string) (fs : FS) (n : nat) :
  (forall d fs p, path_exists fs p = true -> path_exists (makedirs d fs).2 p = true) ->
  (forall s d fs p, path_exists fs p = true -> path_exists (copy s d fs).2 p = true) ->
  (forall s d fs, (copy s d fs).1 = Ok () -> path_exists (copy s d fs).2 d = true) ->
  eligible cls m fs = Ok true ->
  result_of (_install cls m game_dir fs) = Ok n ->
  let after := fs_of (_install cls m game_dir fs) in
  (forall file, In file (downloaded_files cls m fs) ->
     path_exists after (_get_file_install_path game_dir file (is_bepinex m)) = true)
  /\ (forall p, path_exists fs p = true -> path_exists after p = true).
Proof.
  intros Hmk Hcp Hnew Hel. rewrite _install_run, Hel.
  pose proof (install_files_all_there cls m game_dir Hmk Hcp Hnew
                (downloaded_files cls m fs) false) as Hthere.
  pose proof (install_files_keeps cls m game_dir Hmk Hcp
                (downloaded_files cls m fs) false fs) as Hkeeps.
  destruct (install_files _ _ _ _ _ _) as [[[b|e] fs'] ev] eqn:Hloop; [| done].
  intros _ after. subst after. unfold fs_of in *. simpl in *. split.
  - intros file Hfile. specialize (Hthere b fs). rewrite Hloop in Hthere.
    by apply (Hthere eq_refl).
  - done.
Qed.

Lemma install_leaves_all_in_place_witness :
  let after := fs_of (@_install (Toy.env Scenario.remote) (Some "/cache") Scenario.foo "/game"
                        Scenario.disk_foo_cached) in
  (forall file,
     In file (@downloaded_files (Toy.env Scenario.remote) (Some "/cache") Scenario.foo
                Scenario.disk_foo_cached) ->
     Toy.exists_ after (_get_file_install_path "/game" file false) = true)
  /\ (forall p, Toy.exists_ Scenario.disk_foo_cached p = true -> Toy.exists_ after p = true).
Proof.
  apply (@install_leaves_all_in_place (Toy.env Scenario.remote) (Some "/cache") Scenario.foo
           "/game" Scenario.disk_foo_cached 1%nat).
  - apply toy_makedirs_keeps.
  - apply toy_copy_keeps.
  - apply toy_copy_creates.
  - vm_compute. reflexivity.
  - vm_compute. reflexivity.
Defined.

(** X10.  When no directory below the extraction directory has BepInEx in
    its name, the manifest decides.  A manifest that cannot be read makes
    install raise at once, also for the framework package itself, with
    nothing printed and nothing written; a manifest that names no dependency
    with BepInEx in it turns down every package but the framework, with one
    line printed and nothing written. *)
Theorem install_manifest_decides `{Env} (cls : option string) (m : Mod)
    (game_dir : string) (fs : FS) :
  existsb (Str.contains BEPINEX) (walk_dirs fs (download_path cls m)) = false ->
  (forall e, manifest_dependencies fs (manifest_file cls m) = Raise e ->
     _install cls m game_dir fs = (Raise e, fs, []))
  /\ (forall deps, manifest_dependencies fs (manifest_file cls m) = Ok deps ->
        existsb (Str.contains BEPINEX) deps = false -> is_bepinex m = false ->
        _install cls m game_dir fs
        = (Ok 0%nat, fs,
           [Print ("Unable to install " +:+ repr m +:+ " as it doesn't depend on "
                     +:+ BEPINEX)])).
Proof.
  intros Hwalk.
  assert (forall r, manifest_dependencies fs (manifest_file cls m) = r ->
            eligible cls m fs
            = match r with
              | Ok deps => Ok (existsb (Str.contains BEPINEX) deps || is_bepinex m)
              | Raise e => Raise e
              end) as Hel.
  { intros r Hr. unfold eligible, depends_on_bepinex.
    rewrite run_bind. unfold get_fs. rewrite Hwalk, run_bind. unfold lift. rewrite Hr.
    by destruct r. }
  split.
  - intros e He. by rewrite _install_run, (Hel _ He).
  - intros deps Hdeps Hnone Hfw. by rewrite _install_run, (Hel _ Hdeps), Hnone, Hfw.
Qed.

Lemma install_manifest_decides_witness :
  @_install (Toy.env Scenario.remote) (Some "/cache") Scenario.pack "/game"
    Scenario.disk_pack_no_manifest
  = (Raise (OSError "No such file or directory"), Scenario.disk_pack_no_manifest, []).
Proof.
  apply (@install_manifest_decides (Toy.env Scenario.remote) (Some "/cache") Scenario.pack
           "/game" Scenario.disk_pack_no_manifest); vm_compute; reflexivity.
Defined.

(** ** More on download and the pool *)

Section Tasks.
Context `{Env}.
Variable cls : option string.

Lemma _download_present (m : Mod) (fs : FS) :
  path_exists fs (download_path cls m) = true -> _download cls m fs = (Ok 0%nat, fs, []).
Proof.
  intros Hex. unfold _download, exists_. rewrite !run_bind. unfold get_fs, ret.
  by rewrite Hex.
Qed.

Lemma _download_count (m : Mod) (fs : FS) (n : nat) :
  result_of (_download cls m fs) = Ok n -> (n <= 1)%nat.
Proof.
  destruct (path_exists fs (download_path cls m)) eqn:Hex.
  - rewrite (_download_present m fs Hex). unfold result_of. simpl. intros [= <-]. lia.
  - rewrite (_download_absent cls m fs Hex).
    destruct (session_get (url m)) as [response|e]; [| done].
    destruct (raise_for_status response) as [[]|e]; [| done].
    destruct (extractall _ _ fs) as [[[]|e] fs']; [| done].
    unfold result_of. simpl. intros [= <-]. lia.
Qed.

Lemma _install_count (m : Mod) (game_dir : string) (fs : FS) (n : nat) :
  result_of (_install cls m game_dir fs) = Ok n -> (n <= 1)%nat.
Proof.
  rewrite _install_run.
  destruct (eligible cls m fs) as [[]|e]; [| | done].
  - destruct (install_files _ _ _ _ _ _) as [[[b|e] fs'] ev]; [| done].
    unfold result_of. simpl. intros [= <-]. destruct b; lia.
  - unfold result_of. simpl. intros [= <-]. lia.
Qed.

(** One task of the pool, written out. *)
Lemma _download_and_install_mod_run (m : Mod) (game_dir : string) (fs : FS) :
  _download_and_install_mod cls m game_dir fs
  = match _download cls m fs with
    | (Ok ret_dl, fs1, ev1) =>
        let '(r, fs2, ev2) := _install cls m game_dir fs1 in
        (match r with Ok ret_in => Ok (ret_dl, ret_in, 0%nat) | Raise e => Raise e end,
         fs2, ev1 ++ ev2)
    | (Raise (HTTPError msg), fs1, ev1) =>
        (Ok (0, 0, 1)%nat, fs1,
         ev1 ++ [Print ("Failed to download " +:+ repr m +:+ ": " +:+ msg)])
    | (Raise e, fs1, ev1) => (Raise e, fs1, ev1)
    end.
Proof.
  unfold _download_and_install_mod, try_except_HTTPError.
  destruct (_download cls m fs) as [[[ret_dl|e] fs1] ev1].
  - rewrite run_bind.
    destruct (_install cls m game_dir fs1) as [[[ret_in|e] fs2] ev2]; [| done].
    unfold ret. simpl. by rewrite app_nil_r.
  - by destruct e.
Qed.

(** What a task can return: what it downloaded and installed, each 0 or 1,
    and no error, or nothing and one error. *)
Lemma task_counts (m : Mod) (game_dir : string) (fs : FS) (d i e : nat) :
  result_of (_download_and_install_mod cls m game_dir fs) = Ok (d, i, e) ->
  (d + e <= 1)%nat /\ (i + e <= 1)%nat.
Proof.
  rewrite _download_and_install_mod_run.
  pose proof (_download_count m fs) as Hd.
  destruct (_download cls m fs) as [[[ret_dl|x] fs1] ev1].
  - pose proof (_install_count m game_dir fs1) as Hi.
    destruct (_install cls m game_dir fs1) as [[[ret_in|x] fs2] ev2]; [| done].
    unfold result_of in *. simpl in *. intros [= <- <- <-].
    specialize (Hd _ eq_refl). specialize (Hi _ eq_refl). lia.
  - destruct x; try done. unfold result_of. simpl. intros [= <- <- <-]. lia.
Qed.

Lemma pool_counts (game_dir : string) (mods : list Mod) (fs : FS)
    (rs : list (nat * nat * nat)) :
  collect (pool_map cls game_dir mods fs).1.1 = Ok rs ->
  ((sum3 rs).1.1 + (sum3 rs).2 <= length mods)%nat
  /\ ((sum3 rs).1.2 + (sum3 rs).2 <= length mods)%nat.
Proof.
  revert fs rs. induction mods as [|m rest IH]; intros fs rs.
  - simpl. intros [= <-]. simpl. lia.
  - simpl. pose proof (task_counts m game_dir fs) as Htask.
    destruct (_download_and_install_mod cls m game_dir fs) as [[r fs1] ev1].
    specialize (IH fs1).
    destruct (pool_map cls game_dir rest fs1) as [[rs' fs2] ev2]. simpl in *.
    destruct r as [[[d i] e]|x]; [| done].
    destruct (collect rs') as [l|x]; [| done].
    intros [= <-]. specialize (IH l eq_refl). specialize (Htask d i e eq_refl).
    unfold sum3 in *. simpl in *. lia.
Qed.

End Tasks.

(** X11.  What a download does.  Its trace is empty, or the one request for
    the package's URL, or that request followed by the extraction into the
    package's directory; the trace is empty exactly when the directory is
    there.  Unless it extracts it leaves the file system as it was.  It
    returns 1 exactly when it has extracted, and then the request was
    answered with a status outside 400 to 599. *)
Theorem download_one_request `{Env} (cls : option string) (m : Mod) (fs : FS) :
  let run := _download cls m fs in
  let request := HttpGet (url m) in
  let extraction := ExtractAll (download_path cls m) in
  (events_of run = [] \/ events_of run = [request]
   \/ events_of run = [request; extraction])
  /\ (events_of run = [] <-> path_exists fs (download_path cls m) = true)
  /\ (events_of run = [request; extraction] \/ fs_of run = fs)
  /\ (forall n, result_of run = Ok n ->
        (n = 0%nat /\ events_of run = [])
        \/ (n = 1%nat /\ exists response,
              session_get (url m) = Ok response
              /\ ~ (400 <= status_code response < 600)%Z
              /\ extractall (content response) (download_path cls m) fs = (Ok (), fs_of run)
              /\ events_of run = [request; extraction])).
Proof.
  intros run request extraction. subst run request extraction.
  destruct (path_exists fs (download_path cls m)) eqn:Hex.
  { rewrite (_download_present cls m fs Hex). unfold events_of, fs_of, result_of. simpl.
    split; [by left |]. split; [done |]. split; [by right |].
    intros n [= <-]. by left. }
  rewrite (_download_absent cls m fs Hex).
  destruct (session_get (url m)) as [response|e].
  2: { unfold events_of, fs_of, result_of. simpl.
       split; [right; by left |]. split; [done |]. split; [by right |]. done. }
  pose proof (raise_for_status_error response) as Herr.
  destruct (raise_for_status response) as [[]|e].
  2: { unfold events_of, fs_of, result_of. simpl.
       split; [right; by left |]. split; [done |]. split; [by right |]. done. }
  destruct (extractall _ _ fs) as [[[]|e] fs'] eqn:Hextract;
    unfold events_of, fs_of, result_of; simpl.
  - split; [right; by right |]. split; [done |]. split; [by left |].
    intros n [= <-]. right. split; [done |]. exists response.
    split; [done |]. split; [| done].
    intros Hcode. by destruct (Herr Hcode) as (msg & _ & ?).
  - split; [right; by right |]. split; [done |]. split; [by left |]. done.
Qed.

(** X12.  A pool that ends well prints its summary last, and the summary
    keeps within the number of packages: those downloaded and those that
    failed together are no more than the packages given, and so are those
    installed and those that failed; and there is at least one package. *)
Theorem summary_within_total `{Env} (cls : option string) (mods : list Mod)
    (game_dir : string) (fs : FS) :
  result_of (_download_and_install_mods cls mods game_dir fs) = Ok () ->
  exists downloaded installed errs,
    last (events_of (_download_and_install_mods cls mods game_dir fs))
    = Some (Print (summary downloaded installed errs (length mods)))
    /\ (downloaded + errs <= length mods)%nat
    /\ (installed + errs <= length mods)%nat
    /\ (0 < length mods)%nat.
Proof.
  rewrite _download_and_install_mods_run.
  pose proof (pool_counts cls game_dir mods fs) as Hcounts.
  pose proof (pool_map_length cls game_dir mods fs) as Hlen.
  destruct (pool_map cls game_dir mods fs) as [[rs fs'] ev]. cbn [fst snd] in *.
  unfold aggregate.
  destruct (collect rs) as [l|x] eqn:Hcollect; [| done].
  destruct l as [|r l]; [done |].
  specialize (Hcounts _ eq_refl).
  destruct (sum3 (r :: l)) as [[d i] e] eqn:Hsum. simpl in *.
  intros _. exists d, i, e. unfold events_of. simpl.
  split; [by rewrite last_snoc |]. split; [lia |]. split; [lia |].
  destruct rs; [done |]. simpl in Hlen. lia.
Qed.

Lemma summary_within_total_witness :
  exists downloaded installed errs,
    last (events_of (@_download_and_install_mods (Toy.env Scenario.remote) (Some "/cache")
                       [Scenario.foo; Scenario.bar] "/game" Scenario.disk_foo_cached))
    = Some (Print (summary downloaded installed errs 2))
    /\ (downloaded + errs <= 2)%nat
    /\ (installed + errs <= 2)%nat
    /\ (0 < 2)%nat.
Proof.
  apply (@summary_within_total (Toy.env Scenario.remote) (Some "/cache")
           [Scenario.foo; Scenario.bar] "/game" Scenario.disk_foo_cached).
  vm_compute. reflexivity.
Defined.

(** X13.  Only an HTTPError of the download is caught.  A task whose
    download raises anything else, or whose install raises, raises; the
    pool still runs every other task, but when the tasks before it ended
    well the batch ends with that exception and prints no summary. *)
Theorem other_errors_abort_batch `{Env} (cls : option string) (m : Mod)
    (game_dir : string) (fs : FS) (e : exn) :
  (result_of (_download cls m fs) = Raise e /\ (forall msg, e <> HTTPError msg))
  \/ ((exists n, result_of (_download cls m fs) = Ok n)
      /\ result_of (_install cls m game_dir (fs_of (_download cls m fs))) = Raise e) ->
  let task := _download_and_install_mod cls m game_dir fs in
  result_of task = Raise e
  /\ (forall before after fs0 rs,
        (pool_map cls game_dir before fs0).1.2 = fs ->
        collect (pool_map cls game_dir before fs0).1.1 = Ok rs ->
        let run := _download_and_install_mods cls (before ++ m :: after) game_dir fs0 in
        result_of run = Raise e
        /\ events_of run
           = (pool_map cls game_dir before fs0).2 ++ events_of task
               ++ (pool_map cls game_dir after (fs_of task)).2
        /\ fs_of run = (pool_map cls game_dir after (fs_of task)).1.2).
Proof.
  intros Hcase task.
  assert (result_of task = Raise e) as Htask.
  { subst task. rewrite _download_and_install_mod_run.
    destruct Hcase as [[Hdl Hother] | [[n Hdl] Hin]].
    - destruct (_download cls m fs) as [[[ret_dl|x] fs1] ev1];
        unfold result_of in Hdl; simpl in Hdl; [done |].
      injection Hdl as ->. destruct e; try done. by destruct (Hother msg).
    - destruct (_download cls m fs) as [[[ret_dl|x] fs1] ev1];
        unfold result_of in Hdl; simpl in Hdl; [| done].
      unfold fs_of in Hin. simpl in Hin.
      destruct (_install cls m game_dir fs1) as [[[ret_in|x] fs2] ev2];
        unfold result_of in Hin; simpl in Hin; [done |].
      by injection Hin as ->. }
  split; [done |].
  intros before after fs0 rs Hfs Hbefore run. subst run.
  rewrite _download_and_install_mods_run, pool_map_app.
  destruct (pool_map cls game_dir before fs0) as [[rs1 fs1] ev1].
  simpl in Hfs, Hbefore. subst fs1. simpl.
  fold task. destruct task as [[r fs1] ev2]. unfold result_of in Htask. simpl in Htask.
  subst r. unfold fs_of, events_of, result_of. cbn [fst snd].
  destruct (pool_map cls game_dir after fs1) as [[rs2 fs2] ev3].
  assert (aggregate (rs1 ++ Raise e :: rs2) = Raise e) as ->.
  { unfold aggregate.
    assert (collect (rs1 ++ Raise e :: rs2) = Raise e) as ->; [| done].
    clear -Hbefore. revert rs Hbefore.
    induction rs1 as [|[a|x] rs1 IH]; intros rs; simpl; [done | | done].
    destruct (collect rs1) as [l|x]; [| done]. intros _. by rewrite (IH l eq_refl). }
  done.
Qed.

Lemma other_errors_abort_batch_witness :
  let E := Toy.env Scenario.remote in
  let task := @_download_and_install_mod E (Some "/cache") Scenario.pack "/game"
                Scenario.disk_pack_no_manifest in
  let run := @_download_and_install_mods E (Some "/cache") [Scenario.pack; Scenario.foo]
               "/game" Scenario.disk_pack_no_manifest in
  result_of task = Raise (OSError "No such file or directory")
  /\ result_of run = Raise (OSError "No such file or directory")
  /\ existsb is_copy (events_of run) = true.
Proof.
  intros E task run.
  destruct (@other_errors_abort_batch E (Some "/cache") Scenario.pack "/game"
              Scenario.disk_pack_no_manifest (OSError "No such file or directory"))
    as [Htask Hpool].
  { right. split; [exists 0%nat |]; vm_compute; reflexivity. }
  split; [exact Htask |].
  destruct (Hpool [] [Scenario.foo] Scenario.disk_pack_no_manifest [])
    as (Hres & Hev & _); [reflexivity | reflexivity |].
  split; [exact Hres |]. vm_compute. reflexivity.
Defined.

(** ** The framework and the whole run *)

Section Orchestration.
Context `{Env}.

(** The first half of the [with] block, written out. *)
Lemma install_framework_first_run (args : Args) (cls : option string)
    (bepinex_mod : option Mod) (fs : FS) :
  install_framework_first args cls bepinex_mod fs
  = if path_exists fs (PosixPath.join (game_dir args) BEPINEX) then
      (Ok true, fs,
       match bepinex_mod with
       | Some b => [Print ("Skipping " +:+ repr b +:+ " (already installed)")]
       | None => []
       end)
    else
      match bepinex_mod with
      | Some b =>
          let '(r, fs1, ev) := _download_and_install_mod cls b (game_dir args) fs in
          (match r with
           | Ok (_, _, err) => Ok (negb (err =? 1)%nat)
           | Raise e => Raise e
           end, fs1, ev)
      | None =>
          (Ok false, fs,
           [Print (BEPINEX_PACKAGE_NAME +:+ " is not installed.");
            Print ("Add it to '" +:+ mods_file args +:+ "' or install it manually.");
            Print "See https://thunderstore.io/package/bbepis/BepInExPack"])
      end.
Proof.
  unfold install_framework_first, _is_bepinex_installed. rewrite !run_bind.
  unfold get_fs, ret. cbn [fst snd].
  destruct (path_exists fs _); cbn [negb].
  - by destruct bepinex_mod.
  - destruct bepinex_mod as [b|]; [| done].
    rewrite run_bind.
    destruct (_download_and_install_mod cls b (game_dir args) fs) as [[[[[d i] e]|x] fs1] ev];
      [| done].
    destruct (e =? 1)%nat; simpl; by rewrite app_nil_r.
Qed.

(** The [with] block when its first half says stop. *)
Lemma main_body_stop (args : Args) (cls : option string) (mods : gset Mod)
    (bepinex_mod : option Mod) (fs fs1 : FS) (ev1 : list event) :
  install_framework_first args cls bepinex_mod fs = (Ok false, fs1, ev1) ->
  main_body args cls mods bepinex_mod fs = (Ok 1%nat, fs1, ev1).
Proof.
  intros Hfirst. unfold main_body. rewrite run_bind, Hfirst. cbn [negb].
  unfold ret. by rewrite app_nil_r.
Qed.

Lemma main_body_raise (args : Args) (cls : option string) (mods : gset Mod)
    (bepinex_mod : option Mod) (fs fs1 : FS) (ev1 : list event) (e : exn) :
  install_framework_first args cls bepinex_mod fs = (Raise e, fs1, ev1) ->
  main_body args cls mods bepinex_mod fs = (Raise e, fs1, ev1).
Proof. intros Hfirst. unfold main_body. by rewrite run_bind, Hfirst. Qed.

(** [main], by the checks it makes before its [with] block. *)
Lemma main_cases (args : Args) (fs : FS) :
  main args fs
  = if negb (path_isdir fs (game_dir args)) then
      (Ok 1%nat, fs, [Print ("Game directory '" +:+ game_dir args +:+ "' does not exist.")])
    else if truthy (args_out_dir args)
            && negb (path_isdir fs (default EmptyString (args_out_dir args))) then
      (Ok 1%nat, fs,
       [Print ("Out directory '" +:+ default EmptyString (args_out_dir args)
                 +:+ "' does not exist.")])
    else
      match result_of (_read_mods (mods_file args) fs) with
      | Raise e => (Raise e, fs, [])
      | Ok (mods, bepinex_mod) =>
          let run := main_body args (enter args fs).1 mods bepinex_mod (enter args fs).2 in
          (result_of run, leave args (enter args fs).1 (fs_of run), events_of run)
      end.
Proof.
  destruct (path_isdir fs (game_dir args)) eqn:Hgame; cbn [negb].
  2: { unfold main. rewrite run_bind. unfold get_fs at 1. by rewrite Hgame. }
  destruct (truthy (args_out_dir args)
            && negb (path_isdir fs (default EmptyString (args_out_dir args)))) eqn:Hout.
  { unfold main. rewrite run_bind. unfold get_fs at 1. rewrite Hgame, Hout.
    reflexivity. }
  destruct (result_of (_read_mods (mods_file args) fs)) as [[mods bepinex_mod]|e] eqn:Hread.
  - apply main_run; [done | | done].
    intros Htruthy. rewrite Htruthy in Hout.
    by destruct (path_isdir fs (default EmptyString (args_out_dir args))).
  - unfold main. rewrite run_bind. unfold get_fs at 1. rewrite Hgame, Hout. cbn [negb].
    by rewrite run_bind, _read_mods_reads, Hread.
Qed.

(** A mods file that does not name the framework. *)
Lemma _read_mods_no_framework (file : string) (fs : FS) (lines : list string)
    (parsed : list Mod) :
  readlines fs file = Ok lines -> parse_lines lines = Ok parsed ->
  forallb (λ m, negb (is_bepinex m)) parsed = true ->
  result_of (_read_mods file fs) = Ok (list_to_set parsed, None).
Proof.
  intros Hlines Hparsed Hnone. rewrite _read_mods_result, Hlines, Hparsed. cbv zeta.
  assert (filter (λ m, is_bepinex m = true) (list_to_set parsed : gset Mod) = ∅) as ->.
  { apply set_eq. intros m. rewrite elem_of_filter, elem_of_list_to_set, list_elem_of_In.
    split; [| by intros ?%not_elem_of_empty].
    intros [Hb Hin]. rewrite forallb_forall in Hnone. specialize (Hnone m Hin).
    rewrite Hb in Hnone. done. }
  by rewrite size_empty, elements_empty.
Qed.

End Orchestration.

(** X14.  The framework is not in the game directory, the mods file names
    it, it is not in the cache, and its request is answered with a status
    from 400 to 599: the run makes that one request, prints the failure and
    returns 1.  No other package is requested and nothing is written. *)
Theorem framework_failure_fatal `{Env} (args : Args) (fs : FS) (mods : gset Mod)
    (b : Mod) (response : Response Content) :
  path_isdir fs (game_dir args) = true ->
  (truthy (args_out_dir args) = true ->
   path_isdir fs (default EmptyString (args_out_dir args)) = true) ->
  result_of (_read_mods (mods_file args) fs) = Ok (mods, Some b) ->
  let cls := (enter args fs).1 in
  let fs' := (enter args fs).2 in
  path_exists fs' (PosixPath.join (game_dir args) BEPINEX) = false ->
  path_exists fs' (download_path cls b) = false ->
  session_get (url b) = Ok response ->
  (400 <= status_code response < 600)%Z ->
  exists msg,
    http_error_msg response = Some msg
    /\ main args fs
       = (Ok 1%nat, leave args cls fs',
          [HttpGet (url b); Print ("Failed to download " +:+ repr b +:+ ": " +:+ msg)]).
Proof.
  intros Hgame Hout Hread cls fs' Hmissing Habsent Hget Hcode.
  destruct (raise_for_status_error response Hcode) as (msg & Hmsg & Hraise).
  exists msg. split; [done |].
  rewrite (main_run args fs mods (Some b) Hgame Hout Hread). fold cls fs'.
  rewrite (main_body_stop args cls mods (Some b) fs' fs'
             [HttpGet (url b); Print ("Failed to download " +:+ repr b +:+ ": " +:+ msg)]);
    [done |].
  rewrite install_framework_first_run, Hmissing, _download_and_install_mod_run.
  by rewrite (_download_absent cls b fs' Habsent), Hget, Hraise.
Qed.

Lemma framework_failure_fatal_witness :
  result_of (@main (Toy.env []) Scenario.args Scenario.disk) = Ok 1%nat
  /\ events_of (@main (Toy.env []) Scenario.args Scenario.disk)
     = [HttpGet "https://thunderstore.io/package/download/bbepis/BepInExPack/5.4.21";
        Print ("Failed to download BepInExPack 5.4.21: 404 Client Error: Not Found for url: "
                 +:+ "https://thunderstore.io/package/download/bbepis/BepInExPack/5.4.21")].
Proof.
  destruct (@framework_failure_fatal (Toy.env []) Scenario.args Scenario.disk
              {[Scenario.foo; Scenario.bar]} Scenario.pack
              (mkResponse 404%Z "Not Found" (url Scenario.pack) []))
    as (msg & Hmsg & Hmain).
  - reflexivity.
  - discriminate.
  - destruct (@only_framework Scenario.pack Scenario.foo Scenario.bar eq_refl eq_refl eq_refl)
      as [Hfilter Hrest].
    pose proof (list_to_set_three Scenario.pack Scenario.foo Scenario.bar) as Hset.
    rewrite (@_read_mods_one_framework (Toy.env []) (mods_file Scenario.args) Scenario.disk
               Scenario.mods_txt
               [Scenario.pack; Scenario.foo; Scenario.bar] Scenario.pack eq_refl eq_refl);
      rewrite Hset; [by rewrite Hrest | done].
  - vm_compute. reflexivity.
  - vm_compute. reflexivity.
  - reflexivity.
  - simpl. lia.
  - rewrite Hmain. injection Hmsg as <-. split; vm_compute; reflexivity.
Defined.

(** X15.  The framework is not in the game directory and the mods file does
    not name it: the run prints three lines and returns 1, with no request
    and nothing written, whatever else the mods file names. *)
Theorem framework_missing_no_entry `{Env} (args : Args) (fs : FS) (mods : gset Mod) :
  path_isdir fs (game_dir args) = true ->
  (truthy (args_out_dir args) = true ->
   path_isdir fs (default EmptyString (args_out_dir args)) = true) ->
  result_of (_read_mods (mods_file args) fs) = Ok (mods, None) ->
  path_exists (enter args fs).2 (PosixPath.join (game_dir args) BEPINEX) = false ->
  main args fs
  = (Ok 1%nat, leave args (enter args fs).1 (enter args fs).2,
     [Print "BepInExPack is not installed.";
      Print ("Add it to '" +:+ mods_file args +:+ "' or install it manually.");
      Print "See https://thunderstore.io/package/bbepis/BepInExPack"]).
Proof.
  intros Hgame Hout Hread Hmissing.
  rewrite (main_run args fs mods None Hgame Hout Hread).
  rewrite (main_body_stop args _ mods None _ (enter args fs).2
             [Print "BepInExPack is not installed.";
              Print ("Add it to '" +:+ mods_file args +:+ "' or install it manually.");
              Print "See https://thunderstore.io/package/bbepis/BepInExPack"]);
    [done |].
  by rewrite install_framework_first_run, Hmissing.
Qed.

Lemma framework_missing_no_entry_witness :
  result_of (@main (Toy.env Scenario.remote) Scenario.args Scenario.disk_no_framework_entry)
  = Ok 1%nat
  /\ events_of (@main (Toy.env Scenario.remote) Scenario.args
                  Scenario.disk_no_framework_entry)
     = [Print "BepInExPack is not installed.";
        Print "Add it to '/mods.txt' or install it manually.";
        Print "See https://thunderstore.io/package/bbepis/BepInExPack"].
Proof.
  rewrite (@framework_missing_no_entry (Toy.env Scenario.remote) Scenario.args
             Scenario.disk_no_framework_entry (list_to_set [Scenario.foo])).
  - split; reflexivity.
  - reflexivity.
  - discriminate.
  - by apply (@_read_mods_no_framework (Toy.env Scenario.remote) "/mods.txt"
                Scenario.disk_no_framework_entry
                ["alice-Foo-1.0.0" +:+ Scenario.newline] [Scenario.foo]).
  - vm_compute. reflexivity.
Defined.

(** X16.  The framework is in the game directory already: an entry of the
    mods file that names it is skipped with a notice, whatever its version
    and without a request for it, and the run is that notice followed by the
    pool over the other packages; it returns 0 when the pool ends well. *)
Theorem framework_present_entry_skipped `{Env} (args : Args) (fs : FS)
    (mods : gset Mod) (bepinex_mod : option Mod) :
  path_isdir fs (game_dir args) = true ->
  (truthy (args_out_dir args) = true ->
   path_isdir fs (default EmptyString (args_out_dir args)) = true) ->
  result_of (_read_mods (mods_file args) fs) = Ok (mods, bepinex_mod) ->
  path_exists (enter args fs).2 (PosixPath.join (game_dir args) BEPINEX) = true ->
  let cls := (enter args fs).1 in
  let notice :=
    match bepinex_mod with
    | Some b => [Print ("Skipping " +:+ repr b +:+ " (already installed)")]
    | None => []
    end in
  let pool :=
    _download_and_install_mods cls (elements mods) (game_dir args) (enter args fs).2 in
  main args fs
  = (match result_of pool with Ok _ => Ok 0%nat | Raise e => Raise e end,
     leave args cls (fs_of pool), notice ++ events_of pool).
Proof.
  intros Hgame Hout Hread Hthere cls notice pool.
  rewrite (main_run args fs mods bepinex_mod Hgame Hout Hread). fold cls.
  assert (install_framework_first args cls bepinex_mod (enter args fs).2
          = (Ok true, (enter args fs).2, notice)) as Hfirst
    by by rewrite install_framework_first_run, Hthere.
  cbv zeta. unfold main_body. rewrite run_bind, Hfirst. cbn [negb].
  rewrite run_bind. fold pool.
  destruct pool as [[[[]|e] fs2] ev2]; unfold result_of, fs_of, events_of; simpl; [| done].
  by rewrite app_nil_r.
Qed.

Lemma framework_present_entry_skipped_witness :
  events_of (@main (Toy.env Scenario.remote) Scenario.args Scenario.disk_framework_installed)
  = Print "Skipping BepInExPack 5.4.21 (already installed)"
      :: events_of (@_download_and_install_mods (Toy.env Scenario.remote) (Some Toy.tmp)
                      (elements ({[Scenario.foo; Scenario.bar]} : gset Mod)) "/game"
                      (Toy.mkdtemp Scenario.disk_framework_installed).2).
Proof.
  rewrite (@framework_present_entry_skipped (Toy.env Scenario.remote) Scenario.args
             Scenario.disk_framework_installed {[Scenario.foo; Scenario.bar]}
             (Some Scenario.pack)).
  - reflexivity.
  - reflexivity.
  - discriminate.
  - destruct (@only_framework Scenario.pack Scenario.foo Scenario.bar eq_refl eq_refl eq_refl)
      as [Hfilter Hrest].
    pose proof (list_to_set_three Scenario.pack Scenario.foo Scenario.bar) as Hset.
    rewrite (@_read_mods_one_framework (Toy.env Scenario.remote) (mods_file Scenario.args)
               Scenario.disk_framework_installed Scenario.mods_txt
               [Scenario.pack; Scenario.foo; Scenario.bar] Scenario.pack eq_refl eq_refl);
      rewrite Hset; [by rewrite Hrest | done].
  - vm_compute. reflexivity.
Defined.

(** ** What a run asks for and what its exit code tells *)

Section Traces.
Context `{Env}.

Lemma requests_app (ev1 ev2 : list event) :
  requests (ev1 ++ ev2) = requests ev1 ++ requests ev2.
Proof. apply omap_app. Qed.

Lemma install_files_requests (cls : option string) (m : Mod) (game_dir : string)
    (files : list string) (installed : bool) (fs : FS) :
  requests (events_of (install_files cls m game_dir files installed fs)) = [].
Proof.
  revert installed fs. induction files as [|file rest IH]; intros installed fs; [done |].
  rewrite install_files_cons.
  destruct (path_exists fs _); [apply IH |].
  destruct (makedirs _ fs) as [[[]|e] fs1]; [| done].
  destruct (copy _ _ fs1) as [[[]|e] fs2]; [| done].
  specialize (IH true fs2).
  destruct (install_files cls m game_dir rest true fs2) as [[r fs3] ev].
  unfold events_of in *. simpl in *. done.
Qed.

Lemma _install_requests (cls : option string) (m : Mod) (game_dir : string) (fs : FS) :
  requests (events_of (_install cls m game_dir fs)) = [].
Proof.
  rewrite _install_run.
  destruct (eligible cls m fs) as [[]|e]; [| done | done].
  pose proof (install_files_requests cls m game_dir (downloaded_files cls m fs) false fs)
    as Hloop.
  destruct (install_files _ _ _ _ _ _) as [[[b|e] fs'] ev];
    unfold events_of in *; simpl in *; [| done].
  by rewrite requests_app, Hloop.
Qed.

Lemma _download_requests (cls : option string) (m : Mod) (fs : FS) :
  requests (events_of (_download cls m fs)) = []
  \/ requests (events_of (_download cls m fs)) = [url m].
Proof.
  destruct (path_exists fs (download_path cls m)) eqn:Hex.
  { left. by rewrite (_download_present cls m fs Hex). }
  right. rewrite (_download_absent cls m fs Hex).
  destruct (session_get (url m)) as [response|e]; [| done].
  destruct (raise_for_status response) as [[]|e]; [| done].
  by destruct (extractall _ _ fs) as [[[]|e] fs'].
Qed.

Lemma _download_writes (cls : option string) (m : Mod) (fs : FS) :
  existsb writes_game_dir (events_of (_download cls m fs)) = false.
Proof.
  destruct (path_exists fs (download_path cls m)) eqn:Hex.
  { by rewrite (_download_present cls m fs Hex). }
  rewrite (_download_absent cls m fs Hex).
  destruct (session_get (url m)) as [response|e]; [| done].
  destruct (raise_for_status response) as [[]|e]; [| done].
  by destruct (extractall _ _ fs) as [[[]|e] fs'].
Qed.

(** A task asks for its own package, once at most. *)
Lemma task_requests (cls : option string) (m : Mod) (game_dir : string) (fs : FS) :
  requests (events_of (_download_and_install_mod cls m game_dir fs)) = []
  \/ requests (events_of (_download_and_install_mod cls m game_dir fs)) = [url m].
Proof.
  rewrite _download_and_install_mod_run.
  pose proof (_download_requests cls m fs) as Hdl.
  destruct (_download cls m fs) as [[[ret_dl|x] fs1] ev1].
  - pose proof (_install_requests cls m game_dir fs1) as Hin.
    destruct (_install cls m game_dir fs1) as [[r fs2] ev2].
    unfold events_of in *. simpl in *. by rewrite requests_app, Hin, app_nil_r.
  - destruct x; try done. unfold events_of in *. simpl in *.
    by rewrite requests_app, app_nil_r.
Qed.

(** A task that counts an error has written nothing below the game
    directory. *)
Lemma task_error_writes (cls : option string) (m : Mod) (game_dir : string) (fs : FS)
    (d i : nat) :
  result_of (_download_and_install_mod cls m game_dir fs) = Ok (d, i, 1%nat) ->
  existsb writes_game_dir (events_of (_download_and_install_mod cls m game_dir fs)) = false.
Proof.
  rewrite _download_and_install_mod_run.
  pose proof (_download_writes cls m fs) as Hdl.
  destruct (_download cls m fs) as [[[ret_dl|x] fs1] ev1].
  - by destruct (_install cls m game_dir fs1) as [[[ret_in|x] fs2] ev2].
  - destruct x; try done. unfold events_of in *. simpl in *. intros _.
    by rewrite existsb_app, Hdl.
Qed.

Lemma pool_requests (cls : option string) (game_dir : string) (mods : list Mod) (fs : FS) :
  exists asked, sublist asked mods
    /\ requests (pool_map cls game_dir mods fs).2 = map url asked.
Proof.
  revert fs. induction mods as [|m rest IH]; intros fs.
  - exists []. by split.
  - simpl. pose proof (task_requests cls m game_dir fs) as Htask.
    destruct (_download_and_install_mod cls m game_dir fs) as [[r fs1] ev1].
    destruct (IH fs1) as (asked & Hsub & Hasked).
    destruct (pool_map cls game_dir rest fs1) as [[rs fs2] ev2].
    unfold events_of in Htask. simpl in *. rewrite requests_app, Hasked.
    destruct Htask as [-> | ->].
    + exists asked. split; [by constructor | done].
    + exists (m :: asked). split; [by constructor | done].
Qed.

Lemma _download_and_install_mods_requests (cls : option string) (game_dir : string)
    (mods : list Mod) (fs : FS) :
  exists asked, sublist asked mods
    /\ requests (events_of (_download_and_install_mods cls mods game_dir fs))
       = map url asked.
Proof.
  rewrite _download_and_install_mods_run.
  destruct (pool_requests cls game_dir mods fs) as (asked & Hsub & Hasked).
  destruct (pool_map cls game_dir mods fs) as [[rs fs'] ev]. simpl in Hasked.
  exists asked. split; [done |].
  destruct (aggregate rs) as [[[d i] e]|e]; unfold events_of; simpl; [| done].
  by rewrite requests_app, Hasked, app_nil_r.
Qed.

(** The [with] block asks for the framework, if at all, before the
    others, and for no package twice. *)
Lemma main_body_requests (args : Args) (cls : option string) (mods : gset Mod)
    (bepinex_mod : option Mod) (fs : FS) :
  exists asked, sublist asked (option_list bepinex_mod ++ elements mods)
    /\ requests (events_of (main_body args cls mods bepinex_mod fs)) = map url asked.
Proof.
  unfold main_body. rewrite run_bind, install_framework_first_run.
  destruct (path_exists fs _).
  - cbn [negb]. rewrite run_bind.
    destruct (_download_and_install_mods_requests cls (game_dir args) (elements mods) fs)
      as (asked & Hsub & Hasked).
    destruct (_download_and_install_mods cls (elements mods) (game_dir args) fs)
      as [[[[]|e] fs2] ev2]; unfold events_of in *; simpl in *.
    + exists asked. split; [by apply sublist_inserts_l |].
      rewrite !requests_app, Hasked, app_nil_r. by destruct bepinex_mod.
    + exists asked. split; [by apply sublist_inserts_l |].
      rewrite !requests_app, Hasked. by destruct bepinex_mod.
  - destruct bepinex_mod as [b|].
    + pose proof (task_requests cls b (game_dir args) fs) as Htask.
      destruct (_download_and_install_mod cls b (game_dir args) fs)
        as [[[[[d i] e]|x] fs1] ev1]; unfold events_of in Htask; simpl in Htask.
      * destruct (e =? 1)%nat; cbn [negb].
        { unfold ret, events_of. simpl. rewrite app_nil_r.
          destruct Htask as [-> | ->].
          - exists []. split; [apply sublist_nil_l | done].
          - exists [b]. split; [| done]. simpl. constructor. apply sublist_nil_l. }
        rewrite run_bind.
        destruct (_download_and_install_mods_requests cls (game_dir args) (elements mods) fs1)
          as (asked & Hsub & Hasked).
        destruct (_download_and_install_mods cls (elements mods) (game_dir args) fs1)
          as [[[[]|x] fs2] ev2]; unfold events_of in *; simpl in *;
          rewrite ?app_nil_r, requests_app, Hasked;
          destruct Htask as [-> | ->].
        -- exists asked. split; [by constructor | done].
        -- exists (b :: asked). split; [by constructor | done].
        -- exists asked. split; [by constructor | done].
        -- exists (b :: asked). split; [by constructor | done].
      * unfold events_of. simpl. destruct Htask as [-> | ->].
        -- exists []. split; [apply sublist_nil_l | done].
        -- exists [b]. split; [| done]. simpl. constructor. apply sublist_nil_l.
    + exists []. split; [apply sublist_nil_l | done].
Qed.

(** The packages [_read_mods] returns are parsed lines of the mods file, and
    the framework entry is not among the others. *)
Lemma _read_mods_members (file : string) (fs : FS) (mods : gset Mod)
    (bepinex_mod : option Mod) :
  result_of (_read_mods file fs) = Ok (mods, bepinex_mod) ->
  exists lines parsed,
    readlines fs file = Ok lines /\ parse_lines lines = Ok parsed
    /\ (forall m, In m (option_list bepinex_mod ++ elements mods) -> In m parsed)
    /\ List.NoDup (option_list bepinex_mod ++ elements mods).
Proof.
  rewrite _read_mods_result.
  destruct (readlines fs file) as [lines|e] eqn:Hlines; [| done].
  destruct (parse_lines lines) as [parsed|e] eqn:Hparsed; [| done].
  cbv zeta.
  set (S := list_to_set parsed : gset Mod).
  set (F := filter (λ m, is_bepinex m = true) S).
  assert (forall m, m ∈ S -> In m parsed) as HS.
  { intros m. unfold S. by rewrite elem_of_list_to_set, list_elem_of_In. }
  destruct (1 <? size F)%nat; [done |].
  intros Hret. exists lines, parsed. split; [done |]. split; [done |].
  destruct (elements F) as [|b l] eqn:Hel; injection Hret as <- <-; simpl.
  - split.
    + intros m Hm. by apply HS, elem_of_elements, list_elem_of_In.
    + apply NoDup_ListNoDup, NoDup_elements.
  - assert (b ∈ F) as Hb by (apply elem_of_elements; rewrite Hel; left).
    split.
    + intros m [<- | Hm].
      * apply HS. by apply elem_of_filter in Hb as [_ ?].
      * apply list_elem_of_In, elem_of_elements, elem_of_difference in Hm as [Hm _].
        by apply HS.
    + constructor.
      * rewrite <- list_elem_of_In, elem_of_elements, elem_of_difference,
          elem_of_singleton. tauto.
      * apply NoDup_ListNoDup, NoDup_elements.
Qed.

(** The [with] block returns 0 after the summary or 1 without a write
    below the game directory. *)
Lemma main_body_exit (args : Args) (cls : option string) (mods : gset Mod)
    (bepinex_mod : option Mod) (fs : FS) (n : nat) :
  result_of (main_body args cls mods bepinex_mod fs) = Ok n ->
  (n = 0%nat
   /\ exists downloaded installed errs,
        last (events_of (main_body args cls mods bepinex_mod fs))
        = Some (Print (summary downloaded installed errs (size mods))))
  \/ (n = 1%nat
      /\ existsb writes_game_dir (events_of (main_body args cls mods bepinex_mod fs))
         = false).
Proof.
  destruct (install_framework_first args cls bepinex_mod fs) as [[[go_on|e] fs1] ev1]
    eqn:Hfirst.
  2: { by rewrite (main_body_raise args cls mods bepinex_mod fs fs1 ev1 e Hfirst). }
  destruct go_on.
  - rewrite (main_body_go_on args cls mods bepinex_mod fs fs1 ev1 Hfirst).
    destruct (pool_map cls (game_dir args) (elements mods) fs1) as [[rs fs2] ev2].
    destruct (aggregate rs) as [[[d i] e]|e]; [| done].
    unfold result_of, events_of. simpl. intros [= <-]. left. split; [done |].
    exists d, i, e. by rewrite !app_assoc, last_snoc.
  - rewrite (main_body_stop args cls mods bepinex_mod fs fs1 ev1 Hfirst).
    unfold result_of, events_of. simpl. intros [= <-]. right. split; [done |].
    revert Hfirst. rewrite install_framework_first_run.
    destruct (path_exists fs _); [done |].
    destruct bepinex_mod as [b|]; [| by intros [= <- <-]].
    pose proof (task_error_writes cls b (game_dir args) fs) as Htask.
    destruct (_download_and_install_mod cls b (game_dir args) fs)
      as [[[[[d i] e]|x] fs2] ev2]; [| done].
    destruct (Nat.eqb_spec e 1) as [-> |]; [| done].
    intros [= <- <-]. by apply (Htask d i).
Qed.

End Traces.

(** X17.  What the exit code tells.  A run that returns, returns 0 or 1.
    When it returns 0 the last thing it did was to print the summary of the
    pool; when it returns 1 it has made no directory and copied no file. *)
Theorem main_exit_codes `{Env} (args : Args) (fs : FS) (n : nat) :
  result_of (main args fs) = Ok n ->
  (n = 0%nat
   /\ exists downloaded installed errs tot,
        last (events_of (main args fs))
        = Some (Print (summary downloaded installed errs tot)))
  \/ (n = 1%nat /\ existsb writes_game_dir (events_of (main args fs)) = false).
Proof.
  rewrite main_cases.
  destruct (negb (path_isdir fs (game_dir args))).
  { unfold result_of, events_of. simpl. intros [= <-]. by right. }
  destruct (truthy (args_out_dir args) && _).
  { unfold result_of, events_of. simpl. intros [= <-]. by right. }
  destruct (result_of (_read_mods (mods_file args) fs)) as [[mods bepinex_mod]|e]; [| done].
  cbv zeta. unfold result_of at 1, events_of at 1 3. cbn [fst snd].
  intros [(-> & d & i & e & Hlast) | [-> Hquiet]]%main_body_exit.
  - left. split; [done |]. by exists d, i, e, (size mods).
  - by right.
Qed.

Lemma main_exit_codes_witness :
  existsb writes_game_dir (events_of (@main (Toy.env []) Scenario.args Scenario.disk)) = false
  /\ exists downloaded installed errs tot,
       last (events_of (@main (Toy.env Scenario.remote) Scenario.args Scenario.disk))
       = Some (Print (summary downloaded installed errs tot)).
Proof.
  split.
  - destruct (@main_exit_codes (Toy.env []) Scenario.args Scenario.disk 1%nat)
      as [[Hn _] | [_ Hquiet]]; [vm_compute; reflexivity | discriminate | exact Hquiet].
  - destruct (@main_exit_codes (Toy.env Scenario.remote) Scenario.args Scenario.disk 0%nat)
      as [[_ Hlast] | [Hn _]]; [vm_compute; reflexivity | exact Hlast | discriminate].
Defined.

(** X18.  A run asks the repository only for packages that the mods file
    names, and for none of them twice: the URLs it requests, in order, are
    those of a list of descriptors without repeats, each of them a parsed
    line of the mods file. *)
Theorem requests_only_listed_once `{Env} (args : Args) (fs : FS) :
  exists asked,
    requests (events_of (main args fs)) = map url asked
    /\ List.NoDup asked
    /\ (forall m, In m asked ->
          exists lines parsed,
            readlines fs (mods_file args) = Ok lines
            /\ parse_lines lines = Ok parsed /\ In m parsed).
Proof.
  rewrite main_cases.
  destruct (negb (path_isdir fs (game_dir args))).
  { exists []. split; [done |]. split; [constructor | intros m []]. }
  destruct (truthy (args_out_dir args) && _).
  { exists []. split; [done |]. split; [constructor | intros m []]. }
  destruct (result_of (_read_mods (mods_file args) fs)) as [[mods bepinex_mod]|e] eqn:Hread.
  2: { exists []. split; [done |]. split; [constructor | intros m []]. }
  destruct (_read_mods_members _ _ _ _ Hread) as (lines & parsed & Hlines & Hparsed & Hin & Hnd).
  destruct (main_body_requests args (enter args fs).1 mods bepinex_mod (enter args fs).2)
    as (asked & Hsub & Hasked).
  exists asked. cbv zeta. unfold events_of at 1. cbn [snd]. split; [done |]. split.
  - apply NoDup_ListNoDup. eapply sublist_NoDup; [| exact Hsub]. by apply NoDup_ListNoDup.
  - intros m Hm. exists lines, parsed. split; [done |]. split; [done |].
    apply Hin, list_elem_of_In. eapply elem_of_sublist; [| exact Hsub].
    by apply list_elem_of_In.
Qed.

(** X19.  The summary does not depend on the order in which the pool hands
    back its results: when the results in one order add up to three counts,
    they add up to the same counts in any other order; when they raise, they
    raise in any other order, though not always the same exception. *)
Theorem aggregate_any_order (rs rs' : list (result (nat * nat * nat))) :
  rs ≡ₚ rs' ->
  (forall counts, aggregate rs = Ok counts -> aggregate rs' = Ok counts)
  /\ (forall e, aggregate rs = Raise e -> exists e', aggregate rs' = Raise e').
Proof.
  intros Hperm.
  assert (forall l l' : list (result (nat * nat * nat)), l ≡ₚ l' ->
            forall r, collect l = Ok r -> exists r', collect l' = Ok r' /\ r ≡ₚ r') as Hcollect.
  { clear. induction 1 as [|x l l' _ IH|x y l|l1 l2 l3 _ IH1 _ IH2]; simpl.
    - intros r [= <-]. by exists [].
    - destruct x as [a|e]; [| done]. intros r.
      destruct (collect l) as [q|e]; [| done]. intros [= <-].
      destruct (IH q eq_refl) as (q' & -> & Hq). exists (a :: q'). by split; [| constructor].
    - destruct y as [b|e]; [| done]. destruct x as [a|e]; [| done]. intros r.
      destruct (collect l) as [q|e]; [| done]. intros [= <-].
      exists (a :: b :: q). split; [done | constructor].
    - intros r (r2 & H2 & Hr2)%IH1. destruct (IH2 _ H2) as (r3 & H3 & Hr3).
      exists r3. split; [done | by etrans]. }
  assert (forall r r' : list (nat * nat * nat), r ≡ₚ r' -> sum3 r = sum3 r') as Hsum.
  { intros r r' Hr. unfold sum3.
    by rewrite !(sum_list_with_Permutation_proper _ _ _ Hr). }
  assert (forall l l' : list (result (nat * nat * nat)), l ≡ₚ l' ->
            forall counts, aggregate l = Ok counts -> aggregate l' = Ok counts) as Hok.
  { intros l l' Hl counts. unfold aggregate.
    destruct (collect l) as [r|e] eqn:Hr; [| done].
    destruct (Hcollect l l' Hl r Hr) as (r' & -> & Hrr').
    destruct r as [|a r]; [done |]. intros [= <-].
    destruct r' as [|a' r']; [by apply Permutation_nil_r in Hrr' |].
    by rewrite (Hsum _ _ Hrr'). }
  split; [by apply Hok |].
  intros e He. destruct (aggregate rs') as [counts|e'] eqn:Hrs'; [| by exists e'].
  symmetry in Hperm. rewrite (Hok rs' rs Hperm counts Hrs') in He. done.
Qed.

Lemma aggregate_any_order_witness :
  aggregate [Ok (0, 0, 1)%nat; Ok (1, 1, 0)%nat; Ok (0, 1, 0)%nat] = Ok (1, 2, 1)%nat.
Proof.
  apply (aggregate_any_order [Ok (1, 1, 0)%nat; Ok (0, 1, 0)%nat; Ok (0, 0, 1)%nat]).
  - symmetry.
    exact (Permutation_cons_append [Ok (1, 1, 0)%nat; Ok (0, 1, 0)%nat] (Ok (0, 0, 1)%nat)).
  - reflexivity.
Defined.

(** ** A package fetched and installed *)

Lemma raise_for_status_ok {C} (r : Response C) :
  ~ (400 <= status_code r < 600)%Z -> raise_for_status r = Ok ().
Proof.
  intros Hcode. unfold raise_for_status, http_error_msg.
  destruct (Z.leb_spec 400 (status_code r)), (Z.ltb_spec (status_code r) 500),
    (Z.leb_spec 500 (status_code r)), (Z.ltb_spec (status_code r) 600);
    simpl; try done; lia.
Qed.

(** X20.  A package that is not in the cache and whose request is answered
    with any status outside 400 to 599: the body is unpacked into the
    package's directory, and install runs on the file system the extraction
    leaves.  The task counts one download and no error, and its trace is the
    request, the extraction and then the events of install. *)
Theorem task_fetches_then_installs `{Env} (cls : option string) (m : Mod)
    (game_dir : string) (fs fs1 : FS) (response : Response Content) :
  path_exists fs (download_path cls m) = false ->
  session_get (url m) = Ok response ->
  ~ (400 <= status_code response < 600)%Z ->
  extractall (content response) (download_path cls m) fs = (Ok (), fs1) ->
  let install := _install cls m game_dir fs1 in
  _download_and_install_mod cls m game_dir fs
  = (match result_of install with
     | Ok ret_in => Ok (1, ret_in, 0)%nat
     | Raise e => Raise e
     end,
     fs_of install,
     [HttpGet (url m); ExtractAll (download_path cls m)] ++ events_of install).
Proof.
  intros Habsent Hget Hcode Hextract install.
  rewrite _download_and_install_mod_run, (_download_absent cls m fs Habsent), Hget.
  rewrite (raise_for_status_ok response Hcode), Hextract.
  subst install. by destruct (_install cls m game_dir fs1) as [[r fs2] ev].
Qed.

Lemma task_fetches_then_installs_witness :
  @_download_and_install_mod (Toy.env Scenario.remote) (Some "/cache") Scenario.foo "/game"
    Scenario.disk_framework_installed
  = (Ok (1, 1, 0)%nat,
     fs_of (@_download_and_install_mod (Toy.env Scenario.remote) (Some "/cache") Scenario.foo
              "/game" Scenario.disk_framework_installed),
     [HttpGet "https://thunderstore.io/package/download/alice/Foo/1.0.0";
      ExtractAll "/cache/alice-Foo-1.0.0";
      MakeDirs "/game/BepInEx/plugins";
      Copy "/cache/alice-Foo-1.0.0/plugins/Foo.dll" "/game/BepInEx/plugins/Foo.dll";
      Print "Installed Foo 1.0.0"]).
Proof.
  rewrite (@task_fetches_then_installs (Toy.env Scenario.remote) (Some "/cache") Scenario.foo
             "/game" Scenario.disk_framework_installed
             (Toy.extractall
                [("plugins/Foo.dll", Toy.Bytes "f");
                 ("manifest.json", Scenario.wants_framework);
                 ("README.md", Toy.Bytes "r")]
                "/cache/alice-Foo-1.0.0" Scenario.disk_framework_installed).2
             (mkResponse 200%Z "OK" (url Scenario.foo)
                [("plugins/Foo.dll", Toy.Bytes "f");
                 ("manifest.json", Scenario.wants_framework);
                 ("README.md", Toy.Bytes "r")])).
  - vm_compute. reflexivity.
  - vm_compute. reflexivity.
  - reflexivity.
  - simpl. lia.
  - reflexivity.
Defined.
